(** * seer: a self-refreshing, read-only configuration map and a role selector

    Shallow embedding of [src/__init__.py] (classes [LiveConfig] and [Seer])
    and the properties of its specification.

    Conventions of the embedding.
    - A Python [dict] is a finite map [gmap string pyval]; keys are strings,
      as in the role file.  The order of [keys()] is the deterministic but
      otherwise arbitrary order of [map_to_list].
    - Mutable objects (the dictionaries built by the deserializers and by
      [dict(...)]) live in a heap and are referred to by [VRef]; scalars are
      immediate.  Sequences and floating point values are left out of the
      value universe.
    - The outside world (file system, deserializers, clock, random source,
      log, periodic scheduler) is a record that every method threads
      through; every interaction is appended to a trace.
    - A method is a function from the receiver and the world to an outcome
      (a value or a raised exception) together with the receiver and the
      world as the call left them: what a call did before raising stays
      done. *)

From Stdlib Require Import ZArith QArith.
From stdpp Require Import gmap strings list fin_maps.

Open Scope Z_scope.

(** ** Values *)

Inductive pyval :=
| VNone
| VBool (b : bool)
| VInt (n : Z)
| VStr (s : string)
| VRef (l : nat).

Global Instance pyval_eq_dec : EqDecision pyval.
Proof. solve_decision. Defined.

(** A document as a deserializer delivers it, before its objects exist.
    Documents are built of mappings and of the scalars below; a document
    with a sequence or a floating point number has no counterpart here, and
    a statement about every document is about every document of this
    type. *)
#[warnings="-register-all"]
Inductive pytree :=
| TNone
| TBool (b : bool)
| TInt (n : Z)
| TStr (s : string)
| TDict (items : list (string * pytree)).

Inductive exn :=
| KeyError (arg : string)
| IndexError
| TypeError
| ValueError
| AttributeError (msg : string)
| IOError (path : string)
| YAMLError
| Exception (msg : string).

Global Instance exn_eq_dec : EqDecision exn.
Proof. solve_decision. Defined.

Inductive result (A : Type) :=
| Ok (a : A)
| Raise (e : exn).
Arguments Ok {A} a.
Arguments Raise {A} e.

(** ** The world *)

Inductive fnode :=
| Missing
| Unreadable
| File (content : string).

Inductive level := WARNING | ERROR.

Inductive event :=
| EvUtcnow (t : Z)
| EvExists (path : string) (found : bool)
| EvOpen (path : string)
| EvLog (lvl : level) (msg : string)
| EvRandom (r : Q)
| EvPeriodic (ms : Z).

Record World := mkWorld {
  fs : string → fnode;
  yaml : string → option pytree;
  json : string → option pytree;
  clock : nat → Z;
  ticks : nat;
  dice : nat → Q;
  rolls : nat;
  heap : list (gmap string pyval);
  trace : list event
}.

Definition with_heap (h : list (gmap string pyval)) (w : World) : World :=
  mkWorld (fs w) (yaml w) (json w) (clock w) (ticks w)
          (dice w) (rolls w) h (trace w).

Definition emit (e : event) (w : World) : World :=
  mkWorld (fs w) (yaml w) (json w) (clock w) (ticks w)
          (dice w) (rolls w) (heap w) (trace w ++ [e]).

Definition tick (w : World) : World :=
  mkWorld (fs w) (yaml w) (json w) (clock w) (S (ticks w))
          (dice w) (rolls w) (heap w) (trace w).

Definition roll (w : World) : World :=
  mkWorld (fs w) (yaml w) (json w) (clock w) (ticks w)
          (dice w) (S (rolls w)) (heap w) (trace w).

(** ** The monad of methods: receiver state, world, exceptions *)

Definition M (S A : Type) : Type := S → World → result A * S * World.

Definition ret {S A} (a : A) : M S A := λ s w, (Ok a, s, w).

Definition bind {S A B} (m : M S A) (k : A → M S B) : M S B :=
  λ s w, match m s w with
         | (Ok a, s', w') => k a s' w'
         | (Raise e, s', w') => (Raise e, s', w')
         end.

Definition raise {S A} (e : exn) : M S A := λ s w, (Raise e, s, w).

(** [try: body except: ...]: the handler says which exceptions it takes. *)
Definition try_except {S A} (body : M S A) (handler : exn → option (M S A)) : M S A :=
  λ s w, match body s w with
         | (Ok a, s', w') => (Ok a, s', w')
         | (Raise e, s', w') =>
             match handler e with
             | Some h => h s' w'
             | None => (Raise e, s', w')
             end
         end.

Definition get_self {S} : M S S := λ s w, (Ok s, s, w).
Definition modify_self {S} (f : S → S) : M S unit := λ s w, (Ok tt, f s, w).
Definition get_world {S} : M S World := λ s w, (Ok w, s, w).
Definition modify_world {S} (f : World → World) : M S unit := λ s w, (Ok tt, s, f w).

Declare Scope py_scope.
Delimit Scope py_scope with py.
Notation "'do' x <- m ; k" := (bind m (λ x, k))
  (at level 10, x name, m at level 100, k at level 200) : py_scope.
Notation "m ;; k" := (bind m (λ _, k))
  (at level 100, k at level 200, right associativity) : py_scope.
Open Scope py_scope.

(** ** Library calls *)

(** [datetime.utcnow()], in microseconds since [datetime.min], the first
    instant of year 1. *)
Definition utcnow {S} : M S Z :=
  do w <- get_world;
  let t := clock w (ticks w) in
  modify_world (λ w, emit (EvUtcnow t) (tick w));;
  ret t.

(** [timedelta(seconds=n)], in microseconds. *)
Definition timedelta (seconds : Z) : Z := seconds * 1000000.

(** The embedding computes durations and instants in unbounded integers.
    Python bounds both: [timedelta(seconds=n)] raises [OverflowError] unless
    the duration has at most 999999999 days, and [instant + duration]
    raises it unless the sum lies between [datetime.min] and
    [datetime.max], the last microsecond of year 9999.  The embedding agrees
    with the code where these two conditions hold. *)
Definition representable (seconds : Z) : Prop :=
  -86399999913600 ≤ seconds ≤ 86399999999999.

Definition datetime_max : Z := 315537897599999999.

Definition is_datetime (t : Z) : Prop := 0 ≤ t ≤ datetime_max.

Definition os_path_exists {S} (path : string) : M S bool :=
  do w <- get_world;
  let found := match fs w path with Missing => false | _ => true end in
  modify_world (emit (EvExists path found));;
  ret found.

Definition open {S} (path : string) : M S string :=
  do w <- get_world;
  match fs w path with
  | File content => modify_world (emit (EvOpen path));; ret content
  | _ => raise (IOError path)
  end.

Definition LOG_warning {S} (msg : string) : M S unit :=
  modify_world (emit (EvLog WARNING msg)).

Definition LOG_error {S} (msg : string) : M S unit :=
  modify_world (emit (EvLog ERROR msg)).

(** [s.endswith(suffix)] *)
Fixpoint endswith (s suffix : string) : bool :=
  if String.eqb s suffix then true
  else match s with
       | EmptyString => false
       | String _ s' => endswith s' suffix
       end.

(** The objects of a document are built bottom-up, each dictionary after
    its values, at the next free address.  [fill] builds the entries of one
    dictionary, a later entry overriding an earlier one with the same key. *)
Definition fill
  (build : pytree → list (gmap string pyval) → pyval * list (gmap string pyval)) :=
  fix go (items : list (string * pytree))
         (acc : gmap string pyval * list (gmap string pyval)) :=
    match items with
    | [] => acc
    | (k, t) :: rest =>
        let '(v, h) := build t acc.2 in
        go rest (<[k := v]> acc.1, h)
    end.

Fixpoint construct (t : pytree) (h : list (gmap string pyval))
  : pyval * list (gmap string pyval) :=
  match t with
  | TNone => (VNone, h)
  | TBool b => (VBool b, h)
  | TInt n => (VInt n, h)
  | TStr s => (VStr s, h)
  | TDict items =>
      let '(d, h') := fill construct items (∅, h) in
      (VRef (length h'), h' ++ [d])
  end.

(** [yaml.load(stream)] and [json.load(stream)] *)
Definition yaml_load {S} (stream : string) : M S pyval :=
  do w <- get_world;
  match yaml w stream with
  | None => raise YAMLError
  | Some t =>
      let '(v, h) := construct t (heap w) in
      modify_world (with_heap h);; ret v
  end.

Definition json_load {S} (stream : string) : M S pyval :=
  do w <- get_world;
  match json w stream with
  | None => raise ValueError
  | Some t =>
      let '(v, h) := construct t (heap w) in
      modify_world (with_heap h);; ret v
  end.

(** [int(x)] for a rational [x]: truncation towards zero. *)
Definition int (x : Q) : Z := Z.quot (Qnum x) (Zpos (Qden x)).

(** [random.random()] *)
Definition random {S} : M S Q :=
  do w <- get_world;
  let r := dice w (rolls w) in
  modify_world (λ w, emit (EvRandom r) (roll w));;
  ret r.

(** [random.choice(seq)]: [seq[int(self.random() * len(seq))]] *)
Definition random_choice {S} (seq : list string) : M S string :=
  do r <- random;
  let i := int (r * inject_Z (Z.of_nat (length seq))) in
  match seq !! Z.to_nat i with
  | Some x => ret x
  | None => raise IndexError
  end.

(** The embedding multiplies and truncates exactly.  CPython draws a double
    [k / 2^53] with [0 <= k < 2^53], converts the length to a double,
    rounds the product to 53 significant bits (to nearest, ties to even)
    and truncates that.  [round53 p] rounds the natural number [p], and
    [double_index k n] is the index [int(random() * n)] so computed. *)
Definition double (k : Z) : Q := k # 9007199254740992.

Definition round53 (p : Z) : Z :=
  let s := Z.log2 p - 52 in
  if s <=? 0 then p
  else
    let q := p / 2 ^ s in
    let rem := p mod 2 ^ s in
    let half := 2 ^ (s - 1) in
    (if (half <? rem) || ((rem =? half) && Z.odd q) then q + 1 else q) * 2 ^ s.

Definition double_index (k n : Z) : Z := round53 (k * round53 n) / 2 ^ 53.

(** ** Operations on values *)

Definition deref (h : list (gmap string pyval)) (v : pyval) : option (gmap string pyval) :=
  match v with
  | VRef l => h !! l
  | _ => None
  end.

(** [v.keys()] *)
Definition py_keys {S} (v : pyval) : M S (list string) :=
  do w <- get_world;
  match deref (heap w) v with
  | Some d => ret (map_to_list d).*1
  | None => raise (AttributeError "keys")
  end.

(** [v[name]] *)
Definition py_getitem {S} (v : pyval) (name : string) : M S pyval :=
  do w <- get_world;
  match deref (heap w) v with
  | Some d =>
      match d !! name with
      | Some x => ret x
      | None => raise (KeyError name)
      end
  | None => raise TypeError
  end.

(** [bool(v)] *)
Definition truthy (h : list (gmap string pyval)) (v : pyval) : bool :=
  match v with
  | VNone => false
  | VBool b => b
  | VInt n => negb (n =? 0)
  | VStr s => negb (String.eqb s EmptyString)
  | VRef l =>
      match h !! l with
      | Some d => negb (bool_decide (d = ∅))
      | None => true
      end
  end.

(** [{}]: a new empty dictionary. *)
Definition new_dict {S} : M S pyval :=
  do w <- get_world;
  modify_world (with_heap (heap w ++ [∅]));;
  ret (VRef (length (heap w))).

(** [dict(v)]: a new dictionary with the entries of [v]. *)
Definition py_dict {S} (v : pyval) : M S pyval :=
  do w <- get_world;
  match v with
  | VRef l =>
      match heap w !! l with
      | Some d =>
          modify_world (with_heap (heap w ++ [d]));;
          ret (VRef (length (heap w)))
      | None => raise TypeError
      end
  | VStr s => if String.eqb s EmptyString then new_dict else raise ValueError
  | _ => raise TypeError
  end.

(** [v[key] = x] on a plain dictionary. *)
Definition py_setitem {S} (v : pyval) (key : string) (x : pyval) : M S unit :=
  do w <- get_world;
  match v with
  | VRef l =>
      match heap w !! l with
      | Some d => modify_world (with_heap (<[l := <[key := x]> d]> (heap w)))
      | None => raise TypeError
      end
  | _ => raise TypeError
  end.

(** ** LiveConfig *)

Record LiveConfig := mkLiveConfig {
  contents : gmap string pyval;
  _filename : string;
  _reload_every : Z;
  _use_timer : bool;
  _last_load : option Z
}.

Definition set_contents (d : gmap string pyval) (self : LiveConfig) : LiveConfig :=
  mkLiveConfig d (_filename self) (_reload_every self) (_use_timer self)
               (_last_load self).

Definition set_last_load (t : Z) (self : LiveConfig) : LiveConfig :=
  mkLiveConfig (contents self) (_filename self) (_reload_every self)
               (_use_timer self) (Some t).

Module LiveConfig.

(** [dict.clear(self)] *)
Definition clear : M LiveConfig unit :=
  modify_self (set_contents ∅).

(** [dict.update(self, v)]: the entries of [v] override those of [self].
    A value that cannot be iterated raises [TypeError]; a string is
    iterated character by character, and its first character is rejected
    as an entry with [ValueError]. *)
Definition update (v : pyval) : M LiveConfig unit :=
  do w <- get_world;
  match v with
  | VRef l =>
      match heap w !! l with
      | Some d => modify_self (λ self, set_contents (d ∪ contents self) self)
      | None => raise TypeError
      end
  | VStr s => if String.eqb s EmptyString then ret tt else raise ValueError
  | _ => raise TypeError
  end.

Definition _reload : M LiveConfig unit :=
  do now <- utcnow;
  modify_self (set_last_load now);;
  do self <- get_self;
  do found <- os_path_exists (_filename self);
  if negb found then
    LOG_warning (_filename self +:+ " not found")
  else
    do stream <- open (_filename self);
    try_except
      (if endswith (_filename self) ".yaml" then
         clear;;
         do v <- yaml_load stream;
         update v
       else if endswith (_filename self) ".json" then
         clear;;
         do v <- json_load stream;
         update v
       else
         raise (Exception ("Unsupported file format! " +:+ _filename self)))
      (λ _, Some (LOG_error ("Bad config format! " +:+ _filename self))).

Definition _reload_if_needed : M LiveConfig unit :=
  do self <- get_self;
  let delta := timedelta (_reload_every self) in
  if _use_timer self then ret tt
  else
    do now <- utcnow;
    match _last_load self with
    | None => raise TypeError
    | Some last => if now >? last + delta then _reload else ret tt
    end.

(** [dict.__getitem__(self, key)] *)
Definition dict_getitem (key : string) : M LiveConfig pyval :=
  do self <- get_self;
  match contents self !! key with
  | Some v => ret v
  | None => raise (KeyError key)
  end.

Definition __getitem__ (key : string) : M LiveConfig pyval :=
  _reload_if_needed;;
  dict_getitem key.

Definition get (key : string) (default : pyval) : M LiveConfig pyval :=
  try_except (__getitem__ key)
    (λ e, match e with KeyError _ => Some (ret default) | _ => None end).

(** [get(key)]: the default of [default] is [None]. *)
Definition get1 (key : string) : M LiveConfig pyval := get key VNone.

Definition __delitem__ (key : string) : M LiveConfig unit :=
  raise (KeyError "LiveConfig is read-only!").

Definition setdefault (key : string) (val : pyval) : M LiveConfig pyval :=
  raise (KeyError "LiveConfig is read-only!").

(** [self[key] = val] is not defined by the class: it is [dict]'s. *)
Definition __setitem__ (key : string) (val : pyval) : M LiveConfig unit :=
  modify_self (λ self, set_contents (<[key := val]> (contents self)) self).

Definition __getattr__ (key : string) : M LiveConfig pyval :=
  try_except (__getitem__ key)
    (λ e, match e with
          | KeyError _ => Some (raise (AttributeError ("No attribute " +:+ key)))
          | _ => None
          end).

(** [ioloop.PeriodicCallback(self._reload, ms).start()] *)
Definition PeriodicCallback_start (ms : Z) : M LiveConfig unit :=
  modify_world (emit (EvPeriodic ms)).

(** The constructor: the object exists only if the body does not raise. *)
Definition __init__ (filename : string) (reload_every : Z) (use_timer : bool)
  (w : World) : result LiveConfig * World :=
  let self := mkLiveConfig ∅ filename reload_every use_timer None in
  match (_reload;;
         if use_timer then PeriodicCallback_start (reload_every * 1000)
         else ret tt) self w with
  | (Ok _, self', w') => (Ok self', w')
  | (Raise e, _, w') => (Raise e, w')
  end.

End LiveConfig.

(** ** Seer *)

Definition DEFAULT_ROLE_FILE : string := "/etc/highlight/roles.yaml".

Record Seer := mkSeer { _roles : LiveConfig }.

(** A call on the owned [LiveConfig], made from a method of [Seer]. *)
Definition on_roles {A} (m : M LiveConfig A) : M Seer A :=
  λ self w, let '(r, roles', w') := m (_roles self) w in (r, mkSeer roles', w').

Module Seer.

Definition __init__ (role_file : string) (use_timer : bool) (w : World)
  : result Seer * World :=
  match LiveConfig.__init__ role_file 10 use_timer w with
  | (Ok roles, w') => (Ok (mkSeer roles), w')
  | (Raise e, w') => (Raise e, w')
  end.

Definition __getitem__ (key : string) : M Seer pyval :=
  do name <-
    try_except
      (do servers <- on_roles (LiveConfig.__getitem__ key);
       do names <- py_keys servers;
       random_choice names)
      (λ e, match e with
            | IndexError => Some (raise (KeyError (key +:+ " not found")))
            | _ => None
            end);
  do servers <- on_roles (LiveConfig.__getitem__ key);
  do data <- py_getitem servers name;
  do w <- get_world;
  do data <- (if truthy (heap w) data then py_dict data else new_dict);
  py_setitem data "name" (VStr name);;
  ret data.

End Seer.

(** ** Vocabulary of the statements *)

(** The world right after the clock has been read once. *)
Definition after_utcnow (w : World) : World :=
  emit (EvUtcnow (clock w (ticks w))) (tick w).

(** The receiver and the world in which a reload probes the file system,
    and the world once the file is open. *)
Definition stamped (s : LiveConfig) (w : World) : LiveConfig :=
  set_last_load (clock w (ticks w)) s.

Definition probed (s : LiveConfig) (w : World) (found : bool) : World :=
  emit (EvExists (_filename s) found) (after_utcnow w).

Definition opened (s : LiveConfig) (w : World) : World :=
  emit (EvOpen (_filename s)) (probed s w true).

Definition not_found (s : LiveConfig) : event :=
  EvLog WARNING (_filename s +:+ " not found").

Definition bad_format (s : LiveConfig) : event :=
  EvLog ERROR ("Bad config format! " +:+ _filename s).

(** The mapping a document denotes at its top level, and the heap once its
    objects are built. *)
Definition top_mapping (items : list (string * pytree)) (h : list (gmap string pyval))
  : gmap string pyval := (fill construct items (∅, h)).1.

Definition top_heap (items : list (string * pytree)) (h : list (gmap string pyval))
  : list (gmap string pyval) :=
  let '(d, h') := fill construct items (∅, h) in h' ++ [d].

(** The number of reload attempts a trace records: each attempt probes the
    file system once, and nothing else does. *)
Fixpoint reloads (tr : list event) : nat :=
  match tr with
  | [] => 0
  | EvExists _ _ :: rest => S (reloads rest)
  | _ :: rest => reloads rest
  end.

(** What a caller can do with a [LiveConfig], and the map it leaves.  A
    reload is what the periodic scheduler calls in timer mode. *)
Inductive call :=
| CallReload
| CallGetitem (key : string)
| CallGet (key : string) (default : pyval)
| CallGetattr (key : string)
| CallDelitem (key : string)
| CallSetdefault (key : string) (val : pyval)
| CallSetitem (key : string) (val : pyval).

Definition after_call (c : call) (s : LiveConfig) (w : World) : LiveConfig :=
  match c with
  | CallReload => (LiveConfig._reload s w).1.2
  | CallGetitem key => (LiveConfig.__getitem__ key s w).1.2
  | CallGet key default => (LiveConfig.get key default s w).1.2
  | CallGetattr key => (LiveConfig.__getattr__ key s w).1.2
  | CallDelitem key => (LiveConfig.__delitem__ key s w).1.2
  | CallSetdefault key val => (LiveConfig.setdefault key val s w).1.2
  | CallSetitem key val => (LiveConfig.__setitem__ key val s w).1.2
  end.

(** The states a map constructed as [s0] can be in later, whatever the
    world does between the calls. *)
Inductive reachable (s0 : LiveConfig) : LiveConfig → Prop :=
| reach_constructed : reachable s0 s0
| reach_call s c w : reachable s0 s → reachable s0 (after_call c s w).

(** The value [get] hands out for a looked-up entry. *)
Definition value_or (default : pyval) (entry : option pyval) : pyval :=
  match entry with
  | Some v => v
  | None => default
  end.

(** The outcome of the inherited [dict.__getitem__]. *)
Definition entry_or_KeyError (key : string) (entry : option pyval) : result pyval :=
  match entry with
  | Some v => Ok v
  | None => Raise (KeyError key)
  end.

(** The world right after the random source has been read once. *)
Definition drawn (w : World) : World :=
  emit (EvRandom (dice w (rolls w))) (roll w).

(** The element [random.choice] takes from [names] on the draw [r]. *)
Definition pick (r : Q) (names : list string) : option string :=
  names !! Z.to_nat (int (r * inject_Z (Z.of_nat (length names)))).

(** The attribute mapping a stored per-server value stands for: the empty
    mapping for a value that is false in a condition ([None], an empty
    dictionary), the dictionary itself otherwise. *)
Definition attributes (h : list (gmap string pyval)) (data : pyval)
  : option (gmap string pyval) :=
  if truthy h data then deref h data else Some ∅.

(** [w'] has every object of [w], unchanged, and possibly new ones. *)
Definition extends (w w' : World) : Prop :=
  ∃ new, heap w' = heap w ++ new.

(** A method that modifies no object that exists when it is called. *)
Definition keeps_objects {S A} (m : M S A) : Prop :=
  ∀ s w, extends w (m s w).2.

(** The class of an exception, which is what an [except] clause sees. *)
Inductive exn_class :=
| KeyError_ | IndexError_ | TypeError_ | ValueError_ | AttributeError_
| IOError_ | YAMLError_ | Exception_.

Definition class_of (e : exn) : exn_class :=
  match e with
  | KeyError _ => KeyError_
  | IndexError => IndexError_
  | TypeError => TypeError_
  | ValueError => ValueError_
  | AttributeError _ => AttributeError_
  | IOError _ => IOError_
  | YAMLError => YAMLError_
  | Exception _ => Exception_
  end.

(** ** Vocabulary of the further properties *)

(** The periods of the periodic callbacks a trace registers, and the log
    records it holds. *)
Fixpoint periodic (tr : list event) : list Z :=
  match tr with
  | [] => []
  | EvPeriodic ms :: rest => ms :: periodic rest
  | _ :: rest => periodic rest
  end.

Fixpoint logged (tr : list event) : list (level * string) :=
  match tr with
  | [] => []
  | EvLog lvl msg :: rest => (lvl, msg) :: logged rest
  | _ :: rest => logged rest
  end.

(** What the deserializer chosen by the file name makes of a content. *)
Definition document_of (s : LiveConfig) (w : World) (c : string) : option pytree :=
  if endswith (_filename s) ".yaml" then yaml w c
  else if endswith (_filename s) ".json" then json w c
  else None.

(** The entry a document gives a key: the last item with that key. *)
Fixpoint last_binding (k : string) (items : list (string * pytree)) : option pytree :=
  match items with
  | [] => None
  | (k', t) :: rest =>
      match last_binding k rest with
      | Some t' => Some t'
      | None => if String.eqb k' k then Some t else None
      end
  end.

(** [represents h v t]: in the heap [h] the value [v] is the document [t].
    A dictionary binds exactly the keys of the items, and every item that no
    later item overrides is represented by the entry of its key. *)
Definition each_item (rep : pyval → pytree → Prop) (d : gmap string pyval) :=
  fix each (items : list (string * pytree)) : Prop :=
    match items with
    | [] => True
    | (k, t) :: rest =>
        (k ∉ rest.*1 → ∃ v, d !! k = Some v ∧ rep v t) ∧ each rest
    end.

Fixpoint represents (h : list (gmap string pyval)) (v : pyval) (t : pytree) : Prop :=
  match t with
  | TNone => v = VNone
  | TBool b => v = VBool b
  | TInt n => v = VInt n
  | TStr str => v = VStr str
  | TDict items =>
      ∃ l d, v = VRef l ∧ h !! l = Some d
             ∧ (∀ k, is_Some (d !! k) ↔ k ∈ items.*1)
             ∧ each_item (λ v' t', represents h v' t') d items
  end.

(** No reload can fall into a lookup made in [w]: the timer is on, or the
    map is fresh at the two readings of the clock the lookup takes. *)
Definition settled (s : LiveConfig) (w : World) : Prop :=
  _use_timer s = true
  ∨ ∃ t0, _use_timer s = false ∧ _last_load s = Some t0
          ∧ clock w (ticks w) ≤ t0 + timedelta (_reload_every s)
          ∧ clock w (S (ticks w)) ≤ t0 + timedelta (_reload_every s).

(** The exceptions a selector lookup lets out. *)
Definition lookup_error (e : exn) : bool :=
  match e with
  | KeyError _ | AttributeError _ | TypeError | ValueError | IOError _ => true
  | IndexError | YAMLError | Exception _ => false
  end.

(** A method that raises nothing outside of [allowed]. *)
Definition raises_only {S A} (allowed : exn → Prop) (m : M S A) : Prop :=
  ∀ s w e s' w', m s w = (Raise e, s', w') → allowed e.

(** ** Small worlds for the examples *)

(** A file system with a single node, and the same with that node replaced. *)
Definition single_file (path : string) (node : fnode) : string → fnode :=
  λ p, if String.eqb p path then node else Missing.

Definition put_file (path : string) (node : fnode) (w : World) : World :=
  mkWorld (λ p, if String.eqb p path then node else fs w p)
          (yaml w) (json w) (clock w) (ticks w) (dice w) (rolls w)
          (heap w) (trace w).

(** A deserializer that knows the documents of a table and rejects every
    other content. *)
Definition table_parser (table : list (string * pytree)) : string → option pytree :=
  λ content, snd <$> List.find (λ entry, String.eqb (fst entry) content) table.

Definition masters_text : string := "master: {a: {ip: 1.1.1.1}, b: {ip: 2.2.2.2}}".

Definition masters_doc : pytree :=
  TDict [("master",
          TDict [("a", TDict [("ip", TStr "1.1.1.1")]);
                 ("b", TDict [("ip", TStr "2.2.2.2")])])].

Definition empty_role_text : string := "empty: {}".

Definition empty_role_doc : pytree := TDict [("empty", TDict [])].

Definition known_docs : string → option pytree :=
  table_parser [(masters_text, masters_doc); (empty_role_text, empty_role_doc)].

(** A world whose only file is [path], the clock showing [t0 + n] seconds
    at its [n]th reading and the random source giving [r] every time. *)
Definition small_world (path : string) (node : fnode) (t0 : Z) (r : Q) : World :=
  mkWorld (single_file path node) known_docs known_docs
          (λ n, timedelta (t0 + Z.of_nat n)) 0 (λ _, r) 0 [] [].

(** A map on a [.txt] file and a world holding that file. *)
Definition txt_config : LiveConfig := mkLiveConfig ∅ "roles.txt" 60 false None.
Definition txt_world : World := small_world "roles.txt" (File masters_text) 0 0.

(** A map loaded 100 seconds after the epoch with a 60 second interval, and
    worlds in which the clock shows 160 and 161 seconds at the next reading;
    the role file does not exist. *)
Definition loaded_config : LiveConfig :=
  mkLiveConfig {[ "k" := VInt 1 ]} "roles.yaml" 60 false (Some (timedelta 100)).
Definition world_at_160 : World := small_world "other.yaml" (File masters_text) 160 0.
Definition world_at_161 : World := small_world "other.yaml" (File masters_text) 161 0.

(** A role file with one role and no server, and the selector on it. *)
Definition empty_role_world : World :=
  small_world "roles.yaml" (File empty_role_text) 0 0.

(** A role file with two masters; the random source gives one half. *)
Definition masters_world : World :=
  small_world "roles.yaml" (File masters_text) 0 (1 # 2).

(** The selector constructed in [masters_world] and the world the
    constructor leaves: the four dictionaries of the document, built
    bottom-up. *)
Definition masters_seer : Seer :=
  mkSeer (mkLiveConfig {[ "master" := VRef 2 ]} "roles.yaml" 10 false (Some 0)).

Definition masters_servers : gmap string pyval :=
  {[ "a" := VRef 0; "b" := VRef 1 ]}.

Definition masters_heap : list (gmap string pyval) :=
  [ {[ "ip" := VStr "1.1.1.1" ]};
    {[ "ip" := VStr "2.2.2.2" ]};
    masters_servers;
    {[ "master" := VRef 2 ]} ].

Definition masters_loaded : World :=
  mkWorld (fs masters_world) (yaml masters_world) (json masters_world)
          (clock masters_world) 1 (dice masters_world) 0 masters_heap
          [EvUtcnow 0; EvExists "roles.yaml" true; EvOpen "roles.yaml"].

(** Maps on a [.yaml] and on a [.json] file holding the two masters. *)
Definition yaml_config : LiveConfig := mkLiveConfig ∅ "roles.yaml" 60 false None.
Definition yaml_world : World := small_world "roles.yaml" (File masters_text) 0 0.
Definition json_config : LiveConfig := mkLiveConfig ∅ "roles.json" 60 false None.
Definition json_world : World := small_world "roles.json" (File masters_text) 0 0.

(** A timer-mode map that was never stamped, and a world whose only path
    cannot be opened. *)
Definition timer_config : LiveConfig :=
  mkLiveConfig {[ "k" := VInt 1 ]} "roles.yaml" 60 true None.
Definition locked_world : World := small_world "roles.yaml" Unreadable 161 0.

(** More documents: an empty file, a role without a value, a role whose
    server has a plain string for its attributes, and the masters moved to
    another server. *)
Definition null_role_text : string := "master:".
Definition string_server_text : string := "master: {a: 10.0.0.1}".
Definition moved_text : string := "master: {c: {ip: 3.3.3.3}}".

Definition more_docs : string → option pytree :=
  table_parser
    [(masters_text, masters_doc);
     (EmptyString, TNone);
     (null_role_text, TDict [("master", TNone)]);
     (string_server_text, TDict [("master", TDict [("a", TStr "10.0.0.1")])]);
     (moved_text, TDict [("master", TDict [("c", TDict [("ip", TStr "3.3.3.3")])])])].

(** A world over these documents whose only file is [roles.yaml], with the
    clock at [t0 + n] seconds at its [n]th reading, the random source at
    [r] and the heap [h]. *)
Definition roles_world (node : fnode) (t0 : Z) (r : Q)
  (h : list (gmap string pyval)) : World :=
  mkWorld (single_file "roles.yaml" node) more_docs more_docs
          (λ n, timedelta (t0 + Z.of_nat n)) 0 (λ _, r) 0 h [].

(** * Properties *)

(** ** Running the monad *)

Ltac unfold_monad :=
  unfold bind, ret, raise, try_except, get_self, modify_self, get_world,
    modify_world in *.

Ltac unfold_calls :=
  unfold utcnow, os_path_exists, open, LOG_warning, LOG_error, yaml_load,
    json_load, random, random_choice, py_keys, py_getitem, new_dict, py_dict,
    py_setitem, LiveConfig.clear, LiveConfig.update in *.

Section Reload.

Variables (s : LiveConfig) (w : World).

Lemma reload_missing :
  fs w (_filename s) = Missing →
  LiveConfig._reload s w =
    (Ok tt, stamped s w,
     emit (not_found s) (probed s w false)).
Proof.
  intros Hfs. unfold LiveConfig._reload. unfold_calls. unfold_monad.
  cbn. rewrite Hfs. reflexivity.
Qed.

Lemma reload_unreadable :
  fs w (_filename s) = Unreadable →
  LiveConfig._reload s w =
    (Raise (IOError (_filename s)), stamped s w, probed s w true).
Proof.
  intros Hfs. unfold LiveConfig._reload. unfold_calls. unfold_monad.
  cbn. rewrite Hfs. cbn. rewrite Hfs. reflexivity.
Qed.

End Reload.

Lemma construct_mapping items h :
  ∃ l, construct (TDict items) h = (VRef l, top_heap items h)
       ∧ top_heap items h !! l = Some (top_mapping items h).
Proof.
  unfold top_heap, top_mapping. cbn [construct].
  destruct (fill construct items (∅, h)) as [d h'] eqn:E. cbn.
  exists (length h'). split; [reflexivity|].
  rewrite lookup_app_r by lia. by rewrite Nat.sub_diag.
Qed.

Section ReloadFile.

Variables (s : LiveConfig) (w : World) (c : string).
Hypothesis Hfile : fs w (_filename s) = File c.

Lemma reload_unsupported :
  endswith (_filename s) ".yaml" = false →
  endswith (_filename s) ".json" = false →
  LiveConfig._reload s w = (Ok tt, stamped s w, emit (bad_format s) (opened s w)).
Proof using Hfile.
  intros Hy Hj. unfold LiveConfig._reload. unfold_calls. unfold_monad.
  cbn. rewrite Hfile. cbn. rewrite Hfile, Hy, Hj. reflexivity.
Qed.

Lemma reload_yaml_unparsable :
  endswith (_filename s) ".yaml" = true →
  yaml w c = None →
  LiveConfig._reload s w =
    (Ok tt, set_contents ∅ (stamped s w), emit (bad_format s) (opened s w)).
Proof using Hfile.
  intros Hy Hp. unfold LiveConfig._reload. unfold_calls. unfold_monad.
  cbn. rewrite Hfile. cbn. rewrite Hfile, Hy. cbn. rewrite Hp. reflexivity.
Qed.

Lemma reload_json_unparsable :
  endswith (_filename s) ".yaml" = false →
  endswith (_filename s) ".json" = true →
  json w c = None →
  LiveConfig._reload s w =
    (Ok tt, set_contents ∅ (stamped s w), emit (bad_format s) (opened s w)).
Proof using Hfile.
  intros Hy Hj Hp. unfold LiveConfig._reload. unfold_calls. unfold_monad.
  cbn. rewrite Hfile. cbn. rewrite Hfile, Hy, Hj. cbn. rewrite Hp. reflexivity.
Qed.

Lemma reload_yaml_mapping items :
  endswith (_filename s) ".yaml" = true →
  yaml w c = Some (TDict items) →
  LiveConfig._reload s w =
    (Ok tt, set_contents (top_mapping items (heap w)) (stamped s w),
     with_heap (top_heap items (heap w)) (opened s w)).
Proof using Hfile.
  intros Hy Hp. destruct (construct_mapping items (heap w)) as (l & Hc & Hl).
  unfold LiveConfig._reload. unfold_calls. unfold_monad.
  cbn. rewrite Hfile. cbn. rewrite Hfile, Hy. cbn. rewrite Hp.
  cbn [construct] in Hc |- *. rewrite Hc. cbn. rewrite Hl. cbn.
  by rewrite (right_id_L ∅ (∪)).
Qed.

Lemma reload_json_mapping items :
  endswith (_filename s) ".yaml" = false →
  endswith (_filename s) ".json" = true →
  json w c = Some (TDict items) →
  LiveConfig._reload s w =
    (Ok tt, set_contents (top_mapping items (heap w)) (stamped s w),
     with_heap (top_heap items (heap w)) (opened s w)).
Proof using Hfile.
  intros Hy Hj Hp. destruct (construct_mapping items (heap w)) as (l & Hc & Hl).
  unfold LiveConfig._reload. unfold_calls. unfold_monad.
  cbn. rewrite Hfile. cbn. rewrite Hfile, Hy, Hj. cbn. rewrite Hp.
  cbn [construct] in Hc |- *. rewrite Hc. cbn. rewrite Hl. cbn.
  by rewrite (right_id_L ∅ (∪)).
Qed.

End ReloadFile.

(** ** What every reload attempt does *)

Ltac reload_cases :=
  unfold LiveConfig._reload; unfold_calls; unfold_monad; cbn;
  repeat match goal with
    | |- context [fs ?w ?p] => destruct (fs w p) eqn:?; cbn
    | |- context [endswith ?a ?b] => destruct (endswith a b) eqn:?; cbn
    | |- context [yaml ?w ?c] => destruct (yaml w c) eqn:?; cbn
    | |- context [json ?w ?c] => destruct (json w c) eqn:?; cbn
    | |- context [construct ?t ?h] => destruct (construct t h) as [[] ?] eqn:?; cbn
    | |- context [@lookup nat _ _ _ ?l ?h] => destruct (h !! l) eqn:?; cbn
    | |- context [String.eqb ?a ?b] => destruct (String.eqb a b) eqn:?; cbn
    end.

Lemma reload_outcome s w :
  (LiveConfig._reload s w).1.1 = Ok tt
  ∨ (LiveConfig._reload s w).1.1 = Raise (IOError (_filename s))
    ∧ fs w (_filename s) = Unreadable.
Proof. reload_cases; try congruence; auto. Qed.

Lemma reload_file_returns s w c :
  fs w (_filename s) = File c → (LiveConfig._reload s w).1.1 = Ok tt.
Proof.
  intros Hfs. destruct (reload_outcome s w) as [H|[_ H]]; [done|congruence].
Qed.

Lemma reload_fields s w :
  let s' := (LiveConfig._reload s w).1.2 in
  _last_load s' = Some (clock w (ticks w)) ∧ _filename s' = _filename s
  ∧ _reload_every s' = _reload_every s ∧ _use_timer s' = _use_timer s.
Proof. reload_cases; try congruence; auto. Qed.

Lemma reload_trace s w :
  ∃ found rest,
    trace (LiveConfig._reload s w).2
    = trace w ++ EvUtcnow (clock w (ticks w)) :: EvExists (_filename s) found :: rest.
Proof.
  reload_cases; try congruence; rewrite <- ?app_assoc; cbn; eexists _, _; reflexivity.
Qed.

Lemma reload_ticks s w : ticks (LiveConfig._reload s w).2 = S (ticks w).
Proof. reload_cases; try congruence; auto. Qed.

(** ** Reloading *)

(** C1. A reload that finds the file present but unparsable does not raise,
    yet it does not keep the previous contents either: [clear()] runs
    before the deserializer is called, so the map is left empty.  Here a
    map is constructed from a good role file, the file is then overwritten
    with a truncated document, and the map is reloaded. *)
Theorem C1_malformed_reload_empties_contents :
  ∃ s w1 s' w',
    LiveConfig.__init__ "roles.yaml" 60 false
      (small_world "roles.yaml" (File masters_text) 0 0) = (Ok s, w1)
    ∧ is_Some (contents s !! "master")
    ∧ yaml w1 "master: {a: {ip" = None
    ∧ LiveConfig._reload s (put_file "roles.yaml" (File "master: {a: {ip") w1)
      = (Ok tt, s', w')
    ∧ contents s' = ∅.
Proof.
  eexists _, _, _, _. split; [vm_compute; reflexivity|].
  split; [vm_compute; eauto|]. split; [reflexivity|].
  split; [vm_compute; reflexivity|]. reflexivity.
Qed.

(** C3. Once the file is open the suffix of its name selects the
    deserializer: a [.yaml] name has its content read by the YAML
    deserializer and the map filled with the mapping it denotes, a [.json]
    name likewise by the JSON deserializer, and any other name has an error
    logged and the contents left as they were.  In no case does the reload
    raise. *)
Theorem C3_parser_selected_by_suffix s w c :
  fs w (_filename s) = File c →
  (LiveConfig._reload s w).1.1 = Ok tt
  ∧ (endswith (_filename s) ".yaml" = true →
     (∀ items, yaml w c = Some (TDict items) →
        LiveConfig._reload s w =
          (Ok tt, set_contents (top_mapping items (heap w)) (stamped s w),
           with_heap (top_heap items (heap w)) (opened s w)))
     ∧ (yaml w c = None →
        LiveConfig._reload s w =
          (Ok tt, set_contents ∅ (stamped s w), emit (bad_format s) (opened s w))))
  ∧ (endswith (_filename s) ".yaml" = false →
     endswith (_filename s) ".json" = true →
     (∀ items, json w c = Some (TDict items) →
        LiveConfig._reload s w =
          (Ok tt, set_contents (top_mapping items (heap w)) (stamped s w),
           with_heap (top_heap items (heap w)) (opened s w)))
     ∧ (json w c = None →
        LiveConfig._reload s w =
          (Ok tt, set_contents ∅ (stamped s w), emit (bad_format s) (opened s w))))
  ∧ (endswith (_filename s) ".yaml" = false →
     endswith (_filename s) ".json" = false →
     ∃ s' w', LiveConfig._reload s w = (Ok tt, s', w')
       ∧ contents s' = contents s
       ∧ trace w' = trace (opened s w) ++ [bad_format s]).
Proof.
  intros Hfs. split; [by eapply reload_file_returns|].
  split; [intros Hy; split|split; [intros Hy Hj; split|intros Hy Hj]].
  - intros items Hp. by eapply reload_yaml_mapping.
  - intros Hp. by eapply reload_yaml_unparsable.
  - intros items Hp. by eapply reload_json_mapping.
  - intros Hp. by eapply reload_json_unparsable.
  - eexists _, _. split; [by eapply reload_unsupported|]. done.
Qed.

Lemma C3_parser_selected_by_suffix_witness :
  (fs txt_world (_filename txt_config) = File masters_text
   ∧ endswith (_filename txt_config) ".yaml" = false
   ∧ endswith (_filename txt_config) ".json" = false
   ∧ ∃ s' w', LiveConfig._reload txt_config txt_world = (Ok tt, s', w')
       ∧ contents s' = contents txt_config
       ∧ trace w' = trace (opened txt_config txt_world) ++ [bad_format txt_config])
  ∧ (fs yaml_world (_filename yaml_config) = File masters_text
     ∧ endswith (_filename yaml_config) ".yaml" = true
     ∧ yaml yaml_world masters_text = Some masters_doc
     ∧ LiveConfig._reload yaml_config yaml_world
       = (Ok tt, set_contents {[ "master" := VRef 2 ]} (stamped yaml_config yaml_world),
          with_heap masters_heap (opened yaml_config yaml_world)))
  ∧ (fs json_world (_filename json_config) = File masters_text
     ∧ endswith (_filename json_config) ".yaml" = false
     ∧ endswith (_filename json_config) ".json" = true
     ∧ json json_world masters_text = Some masters_doc
     ∧ LiveConfig._reload json_config json_world
       = (Ok tt, set_contents {[ "master" := VRef 2 ]} (stamped json_config json_world),
          with_heap masters_heap (opened json_config json_world))).
Proof.
  split; [|split].
  - split; [reflexivity|]. split; [reflexivity|]. split; [reflexivity|].
    apply (C3_parser_selected_by_suffix txt_config txt_world masters_text);
      reflexivity.
  - split; [reflexivity|]. split; [reflexivity|]. split; [reflexivity|].
    destruct (C3_parser_selected_by_suffix yaml_config yaml_world masters_text
                eq_refl) as (_ & Hyaml & _ & _).
    destruct (Hyaml eq_refl) as [Hmapping _].
    exact (Hmapping _ eq_refl).
  - split; [reflexivity|]. split; [reflexivity|]. split; [reflexivity|].
    split; [reflexivity|].
    destruct (C3_parser_selected_by_suffix json_config json_world masters_text
                eq_refl) as (_ & _ & Hjson & _).
    destruct (Hjson eq_refl eq_refl) as [Hmapping _].
    exact (Hmapping _ eq_refl).
Defined.

(** C4. Against a path with no file the constructor returns an empty map,
    and any reload logs a warning, leaves the contents alone and returns. *)
Theorem C4_missing_file_is_tolerated s w reload_every use_timer :
  fs w (_filename s) = Missing →
  (∃ s0 w0,
     LiveConfig.__init__ (_filename s) reload_every use_timer w = (Ok s0, w0)
     ∧ contents s0 = ∅)
  ∧ (∃ s' w',
       LiveConfig._reload s w = (Ok tt, s', w')
       ∧ contents s' = contents s
       ∧ trace w' = trace w ++ [EvUtcnow (clock w (ticks w));
                                EvExists (_filename s) false;
                                not_found s]).
Proof.
  intros Hfs. split.
  - unfold LiveConfig.__init__.
    set (s0 := mkLiveConfig ∅ (_filename s) reload_every use_timer None).
    unfold bind at 1. rewrite (reload_missing s0 w Hfs).
    destruct use_timer; cbn; eexists _, _; split; reflexivity.
  - rewrite (reload_missing s w Hfs). eexists _, _. split; [reflexivity|].
    split; [reflexivity|]. cbn. by rewrite <- !app_assoc.
Qed.

Lemma C4_missing_file_is_tolerated_witness :
  fs world_at_160 (_filename loaded_config) = Missing
  ∧ (∃ s0 w0,
       LiveConfig.__init__ (_filename loaded_config) 60 true world_at_160 = (Ok s0, w0)
       ∧ contents s0 = ∅)
  ∧ (∃ s' w',
       LiveConfig._reload loaded_config world_at_160 = (Ok tt, s', w')
       ∧ contents s' = contents loaded_config
       ∧ trace w' = trace world_at_160
                    ++ [EvUtcnow (clock world_at_160 (ticks world_at_160));
                        EvExists (_filename loaded_config) false;
                        not_found loaded_config]).
Proof.
  split; [reflexivity|].
  apply (C4_missing_file_is_tolerated loaded_config world_at_160 60 true).
  reflexivity.
Defined.

(** C8. Every reload attempt first reads the clock and stores the reading
    in [_last_load]; the file system is probed only afterwards.  The stamp
    is therefore set on every path: file missing, unreadable, rejected by
    the deserializer, or loaded. *)
Theorem C8_reload_stamps_first s w :
  _last_load (LiveConfig._reload s w).1.2 = Some (clock w (ticks w))
  ∧ ∃ found rest,
      trace (LiveConfig._reload s w).2
      = trace w ++ EvUtcnow (clock w (ticks w))
                :: EvExists (_filename s) found :: rest.
Proof.
  split; [apply reload_fields | apply reload_trace].
Qed.

(** ** Writing *)

(** C2. Deleting an entry and [setdefault] are refused with the read-only
    [KeyError] and change nothing; item assignment, which the class does
    not override, is accepted and binds the key. *)
Theorem C2_item_assignment_is_accepted s w key val :
  LiveConfig.__delitem__ key s w
    = (Raise (KeyError "LiveConfig is read-only!"), s, w)
  ∧ LiveConfig.setdefault key val s w
    = (Raise (KeyError "LiveConfig is read-only!"), s, w)
  ∧ ∃ s', LiveConfig.__setitem__ key val s w = (Ok tt, s', w)
          ∧ contents s' !! key = Some val
          ∧ (contents s !! key ≠ Some val → contents s' ≠ contents s).
Proof.
  split; [reflexivity|]. split; [reflexivity|].
  eexists. split; [reflexivity|]. cbn.
  split; [apply lookup_insert_eq|].
  intros Hne Heq. apply Hne. rewrite <- Heq. apply lookup_insert_eq.
Qed.

(** ** Keyed reads *)

Lemma reloads_app tr1 tr2 : reloads (tr1 ++ tr2) = (reloads tr1 + reloads tr2)%nat.
Proof.
  induction tr1 as [|e tr1 IH]; [reflexivity|].
  destruct e; cbn; rewrite IH; reflexivity.
Qed.

Lemma reload_counted s w :
  reloads (trace (LiveConfig._reload s w).2) = S (reloads (trace w)).
Proof.
  reload_cases; try congruence; rewrite !reloads_app; cbn; lia.
Qed.

Section Refresh.

Variables (s : LiveConfig) (w : World).

Lemma refresh_timer :
  _use_timer s = true → LiveConfig._reload_if_needed s w = (Ok tt, s, w).
Proof.
  intros Ht. unfold LiveConfig._reload_if_needed. unfold_monad.
  by rewrite Ht.
Qed.

Lemma refresh_unstamped :
  _use_timer s = false → _last_load s = None →
  LiveConfig._reload_if_needed s w = (Raise TypeError, s, after_utcnow w).
Proof.
  intros Ht Hl. unfold LiveConfig._reload_if_needed, utcnow. unfold_monad.
  by rewrite Ht, Hl.
Qed.

Lemma refresh_fresh t0 :
  _use_timer s = false → _last_load s = Some t0 →
  clock w (ticks w) ≤ t0 + timedelta (_reload_every s) →
  LiveConfig._reload_if_needed s w = (Ok tt, s, after_utcnow w).
Proof.
  intros Ht Hl Hle. unfold LiveConfig._reload_if_needed, utcnow. unfold_monad.
  rewrite Ht, Hl. destruct (Z.gtb_spec (clock w (ticks w))
    (t0 + timedelta (_reload_every s))); [lia|reflexivity].
Qed.

Lemma refresh_stale t0 :
  _use_timer s = false → _last_load s = Some t0 →
  t0 + timedelta (_reload_every s) < clock w (ticks w) →
  LiveConfig._reload_if_needed s w = LiveConfig._reload s (after_utcnow w).
Proof.
  intros Ht Hl Hlt. unfold LiveConfig._reload_if_needed, utcnow. unfold_monad.
  rewrite Ht, Hl. destruct (Z.gtb_spec (clock w (ticks w))
    (t0 + timedelta (_reload_every s))); [reflexivity|lia].
Qed.

(** The four ways a staleness check can go. *)
Lemma refresh_cases :
  LiveConfig._reload_if_needed s w = (Ok tt, s, w)
  ∨ LiveConfig._reload_if_needed s w = (Ok tt, s, after_utcnow w)
  ∨ (_last_load s = None
     ∧ LiveConfig._reload_if_needed s w = (Raise TypeError, s, after_utcnow w))
  ∨ LiveConfig._reload_if_needed s w = LiveConfig._reload s (after_utcnow w).
Proof.
  destruct (_use_timer s) eqn:Ht; [left; by apply refresh_timer|].
  destruct (_last_load s) as [t0|] eqn:Hl;
    [|right; right; left; split; [done|by apply refresh_unstamped]].
  destruct (Z.le_gt_cases (clock w (ticks w)) (t0 + timedelta (_reload_every s))).
  - right; left. by eapply refresh_fresh.
  - right; right; right. by eapply refresh_stale.
Qed.

Lemma refresh_never_KeyError e :
  (LiveConfig._reload_if_needed s w).1.1 = Raise e → ∀ k, e ≠ KeyError k.
Proof.
  intros He k ->.
  destruct refresh_cases as [H|[H|[[_ H]|H]]]; rewrite H in He; try discriminate.
  destruct (reload_outcome s (after_utcnow w)) as [H'|[H' _]];
    rewrite H' in He; discriminate.
Qed.

Lemma refresh_keeps_stamp :
  is_Some (_last_load s) →
  is_Some (_last_load (LiveConfig._reload_if_needed s w).1.2).
Proof.
  intros Hs.
  destruct refresh_cases as [H|[H|[[_ H]|H]]]; rewrite H; try done.
  destruct (reload_fields s (after_utcnow w)) as [Hl _]. by rewrite Hl.
Qed.

(** A keyed read is the staleness check followed by the plain lookup. *)
Lemma getitem_after_refresh key r s' w' :
  LiveConfig._reload_if_needed s w = (r, s', w') →
  LiveConfig.__getitem__ key s w =
    match r with
    | Ok _ => (entry_or_KeyError key (contents s' !! key), s', w')
    | Raise e => (Raise e, s', w')
    end.
Proof.
  intros H. unfold LiveConfig.__getitem__, LiveConfig.dict_getitem.
  unfold_monad. rewrite H. destruct r; [|reflexivity].
  by destruct (contents s' !! key).
Qed.

Lemma get_after_refresh key default r s' w' :
  LiveConfig._reload_if_needed s w = (r, s', w') →
  LiveConfig.get key default s w =
    match r with
    | Ok _ => (Ok (value_or default (contents s' !! key)), s', w')
    | Raise e => (Raise e, s', w')
    end.
Proof.
  intros H. unfold LiveConfig.get. unfold try_except at 1.
  rewrite (getitem_after_refresh key _ _ _ H).
  destruct r as [?|e].
  - by destruct (contents s' !! key).
  - pose proof (refresh_never_KeyError e) as Hk. rewrite H in Hk.
    destruct e; try reflexivity. by destruct (Hk eq_refl arg).
Qed.

End Refresh.

(** C5, as stated, fails at the boundary: a map last loaded at 100 s with
    an interval of 60 s, read when the clock shows exactly 160 s, is at
    [T0 + I] and yet performs no reload. *)
Lemma C5_no_reload_at_the_boundary :
  _use_timer loaded_config = false
  ∧ _last_load loaded_config = Some (timedelta 100)
  ∧ clock world_at_160 (ticks world_at_160)
    = timedelta 100 + timedelta (_reload_every loaded_config)
  ∧ reloads (trace (LiveConfig.__getitem__ "k" loaded_config world_at_160).2) = 0%nat
  ∧ reloads (trace (LiveConfig.get "k" VNone loaded_config world_at_160).2) = 0%nat
  ∧ (LiveConfig.__getitem__ "k" loaded_config world_at_160).1.2 = loaded_config.
Proof. repeat split; vm_compute; reflexivity. Qed.

(** C5, amended. In pull mode, with the last reload attempt at [t0] and
    an interval that Python can represent as a duration and add to [t0]:
    a keyed read ([get] or item lookup) made when the clock shows at most
    [t0 + interval] performs no reload and answers from the snapshot it
    finds; a keyed read made when the clock shows more than
    [t0 + interval] performs exactly one reload and answers from the map
    that reload leaves. *)
Theorem C5_pull_mode_reload_when_overdue s w key default t0 :
  _use_timer s = false →
  _last_load s = Some t0 →
  representable (_reload_every s) →
  is_datetime (t0 + timedelta (_reload_every s)) →
  (clock w (ticks w) ≤ t0 + timedelta (_reload_every s) →
     LiveConfig.__getitem__ key s w
       = (entry_or_KeyError key (contents s !! key), s, after_utcnow w)
     ∧ LiveConfig.get key default s w
       = (Ok (value_or default (contents s !! key)), s, after_utcnow w)
     ∧ reloads (trace (after_utcnow w)) = reloads (trace w))
  ∧ (t0 + timedelta (_reload_every s) < clock w (ticks w) →
     ∃ r s' w',
       LiveConfig._reload s (after_utcnow w) = (r, s', w')
       ∧ LiveConfig.__getitem__ key s w
         = match r with
           | Ok _ => (entry_or_KeyError key (contents s' !! key), s', w')
           | Raise e => (Raise e, s', w')
           end
       ∧ LiveConfig.get key default s w
         = match r with
           | Ok _ => (Ok (value_or default (contents s' !! key)), s', w')
           | Raise e => (Raise e, s', w')
           end
       ∧ reloads (trace w') = S (reloads (trace w))).
Proof.
  intros Ht Hl _ _. split.
  - intros Hle. pose proof (refresh_fresh s w t0 Ht Hl Hle) as H.
    rewrite (getitem_after_refresh s w key _ _ _ H).
    rewrite (get_after_refresh s w key default _ _ _ H).
    repeat split. cbn. rewrite reloads_app. cbn. lia.
  - intros Hlt. pose proof (refresh_stale s w t0 Ht Hl Hlt) as H.
    destruct (LiveConfig._reload s (after_utcnow w)) as [[r s'] w'] eqn:E.
    exists r, s', w'. split; [reflexivity|].
    rewrite (getitem_after_refresh s w key _ _ _ H).
    rewrite (get_after_refresh s w key default _ _ _ H).
    repeat split.
    pose proof (reload_counted s (after_utcnow w)) as Hc. rewrite E in Hc.
    cbn in Hc. rewrite reloads_app in Hc. cbn in Hc. lia.
Qed.

Lemma C5_pull_mode_reload_when_overdue_witness :
  _use_timer loaded_config = false
  ∧ _last_load loaded_config = Some (timedelta 100)
  ∧ representable (_reload_every loaded_config)
  ∧ is_datetime (timedelta 100 + timedelta (_reload_every loaded_config))
  ∧ (clock world_at_160 (ticks world_at_160)
     ≤ timedelta 100 + timedelta (_reload_every loaded_config)
     ∧ LiveConfig.__getitem__ "k" loaded_config world_at_160
       = (Ok (VInt 1), loaded_config, after_utcnow world_at_160)
     ∧ LiveConfig.get "missing" (VInt 7) loaded_config world_at_160
       = (Ok (VInt 7), loaded_config, after_utcnow world_at_160)
     ∧ reloads (trace (after_utcnow world_at_160)) = reloads (trace world_at_160))
  ∧ (timedelta 100 + timedelta (_reload_every loaded_config)
     < clock world_at_161 (ticks world_at_161)
     ∧ ∃ r s' w',
         LiveConfig._reload loaded_config (after_utcnow world_at_161) = (r, s', w')
         ∧ LiveConfig.__getitem__ "k" loaded_config world_at_161
           = match r with
             | Ok _ => (entry_or_KeyError "k" (contents s' !! "k"), s', w')
             | Raise e => (Raise e, s', w')
             end
         ∧ LiveConfig.get "k" VNone loaded_config world_at_161
           = match r with
             | Ok _ => (Ok (value_or VNone (contents s' !! "k")), s', w')
             | Raise e => (Raise e, s', w')
             end
         ∧ reloads (trace w') = S (reloads (trace world_at_161))).
Proof.
  assert (representable (_reload_every loaded_config)) as Hrep
    by (split; by vm_compute).
  assert (is_datetime (timedelta 100 + timedelta (_reload_every loaded_config)))
    as Hsum by (split; by vm_compute).
  split; [reflexivity|]. split; [reflexivity|].
  split; [exact Hrep|]. split; [exact Hsum|]. split.
  - split; [by vm_compute|].
    destruct (C5_pull_mode_reload_when_overdue
                loaded_config world_at_160 "k" (VInt 7) (timedelta 100)
                eq_refl eq_refl Hrep Hsum) as [[Hitem [_ Hcount]] _];
      [by vm_compute|].
    destruct (C5_pull_mode_reload_when_overdue
                loaded_config world_at_160 "missing" (VInt 7) (timedelta 100)
                eq_refl eq_refl Hrep Hsum) as [[_ [Hget _]] _];
      [by vm_compute|].
    split; [exact Hitem|]. split; [exact Hget|exact Hcount].
  - split; [reflexivity|].
    apply (C5_pull_mode_reload_when_overdue
             loaded_config world_at_161 "k" VNone (timedelta 100));
      [reflexivity|reflexivity|exact Hrep|exact Hsum|reflexivity].
Defined.

(** C9. [get(key, default)] first refreshes the map as every keyed read
    does; it then returns the value bound to the key, or the default when
    the key is not bound.  It raises only what the refresh itself raises,
    which is never a [KeyError].  Without a second argument the default is
    [None]. *)
Theorem C9_get_returns_value_or_default s w key default :
  match LiveConfig._reload_if_needed s w with
  | (Ok _, s', w') =>
      LiveConfig.get key default s w
      = (Ok (value_or default (contents s' !! key)), s', w')
  | (Raise e, s', w') =>
      LiveConfig.get key default s w = (Raise e, s', w')
      ∧ ∀ k, e ≠ KeyError k
  end
  ∧ LiveConfig.get1 key s w = LiveConfig.get key VNone s w.
Proof.
  split; [|reflexivity].
  destruct (LiveConfig._reload_if_needed s w) as [[r s'] w'] eqn:E.
  rewrite (get_after_refresh s w key default _ _ _ E).
  destruct r as [?|e]; [reflexivity|]. split; [reflexivity|].
  apply (refresh_never_KeyError s w). by rewrite E.
Qed.

(** ** The load stamp *)

Lemma call_keeps_stamp c s w :
  is_Some (_last_load s) → is_Some (_last_load (after_call c s w)).
Proof.
  intros Hs.
  pose proof (refresh_keeps_stamp s w Hs) as Hr.
  destruct (LiveConfig._reload_if_needed s w) as [[r s'] w'] eqn:E.
  destruct c as [|key|key default|key|key|key val|key val]; cbn [after_call].
  - destruct (reload_fields s w) as [Hl _]. by rewrite Hl.
  - rewrite (getitem_after_refresh s w key _ _ _ E). by destruct r.
  - rewrite (get_after_refresh s w key default _ _ _ E). by destruct r.
  - unfold LiveConfig.__getattr__. unfold try_except at 1.
    rewrite (getitem_after_refresh s w key _ _ _ E).
    destruct r as [?|e].
    + by destruct (contents s' !! key).
    + by destruct e.
  - done.
  - done.
  - done.
Qed.

Lemma init_stamps filename reload_every use_timer w s0 w0 :
  LiveConfig.__init__ filename reload_every use_timer w = (Ok s0, w0) →
  _last_load s0 = Some (clock w (ticks w)).
Proof.
  unfold LiveConfig.__init__.
  set (s := mkLiveConfig ∅ filename reload_every use_timer None).
  pose proof (reload_fields s w) as [Hl _].
  unfold bind at 1.
  destruct (LiveConfig._reload s w) as [[[[]|e] s1] w1]; cbn in Hl.
  - destruct use_timer; cbn; intros [= <- _]; exact Hl.
  - discriminate.
Qed.

(** C10. Once the constructor has returned, [_last_load] holds an instant,
    and it does so in every state the map reaches afterwards; the staleness
    check of a keyed read therefore never adds the interval to [None]
    (which would raise [TypeError]). *)
Theorem C10_last_load_is_set_after_construction
  filename reload_every use_timer w s0 w0 s :
  LiveConfig.__init__ filename reload_every use_timer w = (Ok s0, w0) →
  reachable s0 s →
  is_Some (_last_load s)
  ∧ ∀ w' key,
      (LiveConfig._reload_if_needed s w').1.1 ≠ Raise TypeError
      ∧ (LiveConfig.__getitem__ key s w').1.1 ≠ Raise TypeError.
Proof.
  intros Hinit Hreach.
  assert (is_Some (_last_load s)) as Hs.
  { induction Hreach as [|s c w1 _ IH].
    - rewrite (init_stamps _ _ _ _ _ _ Hinit). eauto.
    - by apply call_keeps_stamp. }
  split; [exact Hs|]. intros w' key.
  assert ((LiveConfig._reload_if_needed s w').1.1 ≠ Raise TypeError) as Hr.
  { destruct (refresh_cases s w') as [H|[H|[[Hn _]|H]]].
    - by rewrite H.
    - by rewrite H.
    - rewrite Hn in Hs. by destruct Hs.
    - rewrite H.
      destruct (reload_outcome s (after_utcnow w')) as [H'|[H' _]];
        by rewrite H'. }
  split; [exact Hr|].
  destruct (LiveConfig._reload_if_needed s w') as [[r s'] w''] eqn:E.
  rewrite (getitem_after_refresh s w' key _ _ _ E).
  destruct r as [?|e]; cbn in *.
  - by destruct (contents s' !! key).
  - intros [= ->]. by apply Hr.
Qed.

Lemma C10_last_load_is_set_after_construction_witness :
  ∃ s0 w0,
    LiveConfig.__init__ "roles.txt" 60 false txt_world = (Ok s0, w0)
    ∧ reachable s0 (after_call (CallGetitem "master") s0 w0)
    ∧ is_Some (_last_load (after_call (CallGetitem "master") s0 w0))
    ∧ ∀ w' key,
        (LiveConfig._reload_if_needed
           (after_call (CallGetitem "master") s0 w0) w').1.1 ≠ Raise TypeError
        ∧ (LiveConfig.__getitem__ key
             (after_call (CallGetitem "master") s0 w0) w').1.1 ≠ Raise TypeError.
Proof.
  eexists _, _. split; [vm_compute; reflexivity|].
  split; [apply reach_call, reach_constructed|].
  eapply (C10_last_load_is_set_after_construction "roles.txt" 60 false txt_world).
  - vm_compute; reflexivity.
  - apply reach_call, reach_constructed.
Defined.

(** ** Looking up a role *)

Lemma int_draw_bound (r : Q) (n : nat) :
  (0 <= r)%Q → (r < 1)%Q → (0 < n)%nat →
  (Z.to_nat (int (r * inject_Z (Z.of_nat n))) < n)%nat.
Proof.
  destruct r as [a b]. unfold Qle, Qlt, int. cbn. rewrite Pos.mul_1_r.
  intros Ha Hb Hn.
  assert (0 ≤ a * Z.of_nat n) by nia.
  assert (a * Z.of_nat n < Z.pos b * Z.of_nat n) by nia.
  pose proof (Z.quot_pos (a * Z.of_nat n) (Z.pos b)).
  pose proof (Z.quot_lt_upper_bound (a * Z.of_nat n) (Z.pos b) (Z.of_nat n)).
  lia.
Qed.

Lemma pick_succeeds r (servers : gmap string pyval) :
  (0 <= r)%Q → (r < 1)%Q → servers ≠ ∅ →
  is_Some (pick r (map_to_list servers).*1).
Proof.
  intros H0 H1 Hne. unfold pick. apply lookup_lt_is_Some.
  apply int_draw_bound; [done..|].
  rewrite length_fmap.
  destruct (map_to_list servers) eqn:E; [|cbn; lia].
  by apply map_to_list_empty_iff in E.
Qed.

Lemma pick_is_key r (servers : gmap string pyval) name :
  pick r (map_to_list servers).*1 = Some name → is_Some (servers !! name).
Proof.
  unfold pick. intros H. apply list_elem_of_lookup_2 in H.
  apply list_elem_of_fmap in H as ([k v] & -> & Hin).
  apply elem_of_map_to_list in Hin. eauto.
Qed.

Lemma on_roles_run {A} (m : M LiveConfig A) seer w r s' w' :
  m (_roles seer) w = (r, s', w') → on_roles m seer w = (r, mkSeer s', w').
Proof. unfold on_roles. by intros ->. Qed.

Lemma insert_last {A} (h : list A) (x y : A) :
  <[length h := y]> (h ++ [x]) = h ++ [y].
Proof. rewrite insert_app_r_alt by lia. by rewrite Nat.sub_diag. Qed.

(** *** Running a method step by step *)

Section Steps.

Context {S A B : Type}.

Lemma bind_ok (m : M S A) (k : A → M S B) s w a s' w' :
  m s w = (Ok a, s', w') → bind m k s w = k a s' w'.
Proof. unfold bind. by intros ->. Qed.

Lemma bind_raise (m : M S A) (k : A → M S B) s w e s' w' :
  m s w = (Raise e, s', w') → bind m k s w = (Raise e, s', w').
Proof. unfold bind. by intros ->. Qed.

Lemma try_ok (m : M S A) handler s w a s' w' :
  m s w = (Ok a, s', w') → try_except m handler s w = (Ok a, s', w').
Proof. unfold try_except. by intros ->. Qed.

Lemma try_caught (m : M S A) handler h s w e s' w' :
  m s w = (Raise e, s', w') → handler e = Some h →
  try_except m handler s w = h s' w'.
Proof. unfold try_except. by intros -> ->. Qed.

Lemma try_passed (m : M S A) handler s w e s' w' :
  m s w = (Raise e, s', w') → handler e = None →
  try_except m handler s w = (Raise e, s', w').
Proof. unfold try_except. by intros -> ->. Qed.

End Steps.

Section Calls.

Context {S : Type} (s : S) (w : World).

Lemma py_keys_run l d :
  heap w !! l = Some d → py_keys (VRef l) s w = (Ok (map_to_list d).*1, s, w).
Proof. intros H. unfold py_keys. unfold_monad. cbn. by rewrite H. Qed.

Lemma random_choice_picked names name :
  pick (dice w (rolls w)) names = Some name →
  random_choice names s w = (Ok name, s, drawn w).
Proof.
  unfold pick. intros H. unfold random_choice, random. unfold_monad.
  by rewrite H.
Qed.

Lemma random_choice_empty :
  random_choice [] s w = (Raise IndexError, s, drawn w).
Proof. reflexivity. Qed.

Lemma py_getitem_run l d name x :
  heap w !! l = Some d → d !! name = Some x →
  py_getitem (VRef l) name s w = (Ok x, s, w).
Proof. intros H Hx. unfold py_getitem. unfold_monad. cbn. by rewrite H, Hx. Qed.

Lemma new_dict_run :
  new_dict s w = (Ok (VRef (length (heap w))), s, with_heap (heap w ++ [∅]) w).
Proof. reflexivity. Qed.

Lemma py_dict_run l d :
  heap w !! l = Some d →
  py_dict (VRef l) s w
  = (Ok (VRef (length (heap w))), s, with_heap (heap w ++ [d]) w).
Proof. intros H. unfold py_dict. unfold_monad. by rewrite H. Qed.

Lemma py_setitem_run l d key x :
  heap w !! l = Some d →
  py_setitem (VRef l) key x s w
  = (Ok tt, s, with_heap (<[l := <[key := x]> d]> (heap w)) w).
Proof. intros H. unfold py_setitem. unfold_monad. by rewrite H. Qed.

Lemma get_world_run : get_world s w = (Ok w, s, w).
Proof. reflexivity. Qed.

End Calls.

(** The object a lookup hands out: a new dictionary with the attributes and
    the name. *)
Lemma named_copy_run {S} (s : S) (w : World) data attrs name :
  attributes (heap w) data = Some attrs →
  (do data' <- (if truthy (heap w) data then py_dict data else new_dict);
   py_setitem data' "name" (VStr name);;
   ret data') s w
  = (Ok (VRef (length (heap w))), s,
     with_heap (heap w ++ [<["name" := VStr name]> attrs]) w).
Proof.
  unfold attributes. intros Ha.
  destruct (truthy (heap w) data).
  - destruct data as [| | | |l]; try discriminate. cbn [deref] in Ha.
    erewrite bind_ok by (by apply py_dict_run).
    erewrite bind_ok
      by (apply py_setitem_run; cbn; rewrite lookup_app_r by lia;
          by rewrite Nat.sub_diag).
    cbn. unfold ret, with_heap. cbn. by rewrite insert_last.
  - injection Ha as <-.
    erewrite bind_ok by apply new_dict_run.
    erewrite bind_ok
      by (apply py_setitem_run; cbn; rewrite lookup_app_r by lia;
          by rewrite Nat.sub_diag).
    cbn. unfold ret, with_heap. cbn. by rewrite insert_last.
Qed.

Section Lookup.

Variables (seer : Seer) (w : World) (key : string).

(** The first line of the lookup, on a role that is not there and on a
    role without servers. *)
Lemma lookup_absent s1 w1 :
  LiveConfig._reload_if_needed (_roles seer) w = (Ok tt, s1, w1) →
  contents s1 !! key = None →
  Seer.__getitem__ key seer w = (Raise (KeyError key), mkSeer s1, w1).
Proof.
  intros Hr Hk. pose proof (getitem_after_refresh _ _ key _ _ _ Hr) as Hg.
  rewrite Hk in Hg. cbn in Hg. apply on_roles_run in Hg.
  unfold Seer.__getitem__.
  apply bind_raise. apply try_passed; [|reflexivity].
  by apply bind_raise.
Qed.

Lemma lookup_empty s1 w1 l :
  LiveConfig._reload_if_needed (_roles seer) w = (Ok tt, s1, w1) →
  contents s1 !! key = Some (VRef l) →
  heap w1 !! l = Some ∅ →
  Seer.__getitem__ key seer w =
    (Raise (KeyError (key +:+ " not found")), mkSeer s1, drawn w1).
Proof.
  intros Hr Hk Hl. pose proof (getitem_after_refresh _ _ key _ _ _ Hr) as Hg.
  rewrite Hk in Hg. cbn in Hg. apply on_roles_run in Hg.
  unfold Seer.__getitem__.
  apply bind_raise.
  rewrite (try_caught _ _ (raise (KeyError (key +:+ " not found")))
             seer w IndexError (mkSeer s1) (drawn w1)); [reflexivity| |reflexivity].
  erewrite bind_ok by exact Hg.
  erewrite bind_ok by (by apply py_keys_run).
  rewrite map_to_list_empty. apply random_choice_empty.
Qed.

(** The whole lookup, when both reads of the role succeed. *)
Lemma lookup_run l1 s1 w1 servers name l2 s2 w2 servers2 data attrs :
  LiveConfig.__getitem__ key (_roles seer) w = (Ok (VRef l1), s1, w1) →
  heap w1 !! l1 = Some servers →
  pick (dice w1 (rolls w1)) (map_to_list servers).*1 = Some name →
  LiveConfig.__getitem__ key s1 (drawn w1) = (Ok (VRef l2), s2, w2) →
  heap w2 !! l2 = Some servers2 →
  servers2 !! name = Some data →
  attributes (heap w2) data = Some attrs →
  Seer.__getitem__ key seer w =
    (Ok (VRef (length (heap w2))), mkSeer s2,
     with_heap (heap w2 ++ [<["name" := VStr name]> attrs]) w2).
Proof.
  intros H1 Hl1 Hp H2 Hl2 Hd Ha.
  apply on_roles_run in H1. apply (on_roles_run _ (mkSeer s1)) in H2.
  unfold Seer.__getitem__.
  erewrite bind_ok; cycle 1.
  { apply try_ok.
    erewrite bind_ok by exact H1.
    erewrite bind_ok by (by apply py_keys_run).
    by apply random_choice_picked. }
  erewrite bind_ok by exact H2.
  erewrite bind_ok by (by eapply py_getitem_run).
  erewrite bind_ok by apply get_world_run.
  by apply named_copy_run.
Qed.

End Lookup.

(** *** Objects are never modified in place *)

Lemma extends_refl w : extends w w.
Proof. exists []. by rewrite app_nil_r. Qed.

Lemma extends_trans w1 w2 w3 : extends w1 w2 → extends w2 w3 → extends w1 w3.
Proof.
  intros [n1 H1] [n2 H2]. exists (n1 ++ n2). by rewrite H2, H1, app_assoc.
Qed.

Lemma extends_lookup w w' l :
  extends w w' → (l < length (heap w))%nat → heap w' !! l = heap w !! l.
Proof. intros [new ->] Hl. by apply lookup_app_l. Qed.

Lemma construct_extends : ∀ t h, ∃ new, (construct t h).2 = h ++ new.
Proof.
  fix IH 1. intros [| | | |items] h; try (exists []; cbn; by rewrite app_nil_r).
  cbn [construct].
  assert (∀ acc, ∃ new, (fill construct items acc).2 = acc.2 ++ new) as Hfill.
  { induction items as [|[k t] rest IHrest]; intros acc.
    - exists []. cbn. by rewrite app_nil_r.
    - cbn [fill]. destruct (IH t acc.2) as [n1 H1].
      destruct (construct t acc.2) as [v h1]. cbn in H1. subst h1.
      destruct (IHrest (<[k := v]> acc.1, acc.2 ++ n1)) as [n2 H2].
      exists (n1 ++ n2). rewrite H2. cbn. by rewrite app_assoc. }
  destruct (Hfill (∅, h)) as [new Hnew].
  destruct (fill construct items (∅, h)) as [d h']. cbn in Hnew. subst h'.
  exists (new ++ [d]). cbn. by rewrite app_assoc.
Qed.

Ltac same_heap := exists []; cbn; by rewrite app_nil_r.

Section Keeps.

Context {S : Type}.

Lemma keeps_ret {A} (a : A) : keeps_objects (ret a : M S A).
Proof. intros s w. same_heap. Qed.

Lemma keeps_raise {A} e : keeps_objects (raise e : M S A).
Proof. intros s w. same_heap. Qed.

Lemma keeps_bind {A B} (m : M S A) (k : A → M S B) :
  keeps_objects m → (∀ a, keeps_objects (k a)) → keeps_objects (bind m k).
Proof.
  intros Hm Hk s w. unfold bind. specialize (Hm s w).
  destruct (m s w) as [[[a|e] s'] w']; cbn in Hm; [|exact Hm].
  eapply extends_trans; [exact Hm|apply Hk].
Qed.

Lemma keeps_try {A} (m : M S A) handler :
  keeps_objects m → (∀ e h, handler e = Some h → keeps_objects h) →
  keeps_objects (try_except m handler).
Proof.
  intros Hm Hh s w. unfold try_except. specialize (Hm s w).
  destruct (m s w) as [[[a|e] s'] w']; cbn in Hm; [exact Hm|].
  destruct (handler e) as [h|] eqn:E; [|exact Hm].
  eapply extends_trans; [exact Hm|by eapply Hh].
Qed.

Lemma keeps_get_self : keeps_objects (get_self : M S S).
Proof. intros s w. same_heap. Qed.

Lemma keeps_modify_self f : keeps_objects (modify_self f : M S unit).
Proof. intros s w. same_heap. Qed.

Lemma keeps_get_world : keeps_objects (get_world : M S World).
Proof. intros s w. same_heap. Qed.

Lemma keeps_utcnow : keeps_objects (utcnow : M S Z).
Proof. intros s w. same_heap. Qed.

Lemma keeps_os_path_exists path : keeps_objects (os_path_exists path : M S bool).
Proof. intros s w. same_heap. Qed.

Lemma keeps_open path : keeps_objects (open path : M S string).
Proof.
  intros s w. unfold open. unfold_monad. destruct (fs w path); same_heap.
Qed.

Lemma keeps_LOG_warning msg : keeps_objects (LOG_warning msg : M S unit).
Proof. intros s w. same_heap. Qed.

Lemma keeps_LOG_error msg : keeps_objects (LOG_error msg : M S unit).
Proof. intros s w. same_heap. Qed.

Lemma keeps_yaml_load stream : keeps_objects (yaml_load stream : M S pyval).
Proof.
  intros s w. unfold yaml_load. unfold_monad.
  destruct (yaml w stream) as [t|]; [|same_heap].
  destruct (construct_extends t (heap w)) as [new H].
  destruct (construct t (heap w)) as [v h]. by exists new.
Qed.

Lemma keeps_json_load stream : keeps_objects (json_load stream : M S pyval).
Proof.
  intros s w. unfold json_load. unfold_monad.
  destruct (json w stream) as [t|]; [|same_heap].
  destruct (construct_extends t (heap w)) as [new H].
  destruct (construct t (heap w)) as [v h]. by exists new.
Qed.

Lemma keeps_random_choice names : keeps_objects (random_choice names : M S string).
Proof.
  intros s w. unfold random_choice, random. unfold_monad.
  destruct (names !! _); same_heap.
Qed.

Lemma keeps_py_keys v : keeps_objects (py_keys v : M S (list string)).
Proof.
  intros s w. unfold py_keys. unfold_monad.
  destruct (deref (heap w) v); same_heap.
Qed.

Lemma keeps_py_getitem v name : keeps_objects (py_getitem v name : M S pyval).
Proof.
  intros s w. unfold py_getitem. unfold_monad.
  destruct (deref (heap w) v) as [d|]; [|same_heap].
  destruct (d !! name); same_heap.
Qed.

(** Building the result writes to the new dictionary only. *)
Lemma keeps_named_copy data name :
  keeps_objects
    (do w <- get_world;
     do data' <- (if truthy (heap w) data then py_dict data else new_dict);
     py_setitem data' "name" (VStr name);;
     ret data' : M S pyval).
Proof.
  intros s w. unfold new_dict, py_dict, py_setitem. unfold_monad.
  assert (∀ d : gmap string pyval,
            (heap w ++ [d]) !! length (heap w) = Some d) as Hlast.
  { intros d. rewrite lookup_app_r by lia. by rewrite Nat.sub_diag. }
  destruct (truthy (heap w) data).
  - destruct data as [| | |str|l]; try same_heap.
    + destruct (String.eqb str EmptyString); [|same_heap].
      cbn. rewrite Hlast. cbn. rewrite insert_last. by eexists.
    + destruct (heap w !! l) as [d|]; [|same_heap].
      cbn. rewrite Hlast. cbn. rewrite insert_last. by eexists.
  - cbn. rewrite Hlast. cbn. rewrite insert_last. by eexists.
Qed.

End Keeps.

Lemma keeps_update v : keeps_objects (LiveConfig.update v).
Proof.
  intros s w. unfold LiveConfig.update. unfold_monad.
  destruct v as [| | |str|l]; try same_heap.
  - destruct (String.eqb str EmptyString); same_heap.
  - destruct (heap w !! l); same_heap.
Qed.

Lemma keeps_reload : keeps_objects LiveConfig._reload.
Proof.
  unfold LiveConfig._reload.
  apply keeps_bind; [apply keeps_utcnow|intros now].
  apply keeps_bind; [apply keeps_modify_self|intros _].
  apply keeps_bind; [apply keeps_get_self|intros self].
  apply keeps_bind; [apply keeps_os_path_exists|intros found].
  destruct (negb found); [apply keeps_LOG_warning|].
  apply keeps_bind; [apply keeps_open|intros stream].
  apply keeps_try.
  - destruct (endswith (_filename self) ".yaml");
      [|destruct (endswith (_filename self) ".json")].
    + apply keeps_bind; [apply keeps_modify_self|intros _].
      apply keeps_bind; [apply keeps_yaml_load|apply keeps_update].
    + apply keeps_bind; [apply keeps_modify_self|intros _].
      apply keeps_bind; [apply keeps_json_load|apply keeps_update].
    + apply keeps_raise.
  - intros e h [= <-]. apply keeps_LOG_error.
Qed.

Lemma keeps_reload_if_needed : keeps_objects LiveConfig._reload_if_needed.
Proof.
  unfold LiveConfig._reload_if_needed.
  apply keeps_bind; [apply keeps_get_self|intros self].
  destruct (_use_timer self); [apply keeps_ret|].
  apply keeps_bind; [apply keeps_utcnow|intros now].
  destruct (_last_load self) as [last|]; [|apply keeps_raise].
  destruct (now >? last + timedelta (_reload_every self));
    [apply keeps_reload|apply keeps_ret].
Qed.

Lemma keeps_getitem key : keeps_objects (LiveConfig.__getitem__ key).
Proof.
  unfold LiveConfig.__getitem__, LiveConfig.dict_getitem.
  apply keeps_bind; [apply keeps_reload_if_needed|intros _].
  apply keeps_bind; [apply keeps_get_self|intros self].
  destruct (contents self !! key); [apply keeps_ret|apply keeps_raise].
Qed.

Lemma keeps_on_roles {A} (m : M LiveConfig A) :
  keeps_objects m → keeps_objects (on_roles m).
Proof.
  intros Hm seer w. unfold on_roles. specialize (Hm (_roles seer) w).
  by destruct (m (_roles seer) w) as [[r s'] w'].
Qed.

(** Whatever a lookup does and however it ends, every dictionary that
    existed before the call is as it was. *)
Lemma lookup_keeps_objects key : keeps_objects (Seer.__getitem__ key).
Proof.
  unfold Seer.__getitem__.
  apply keeps_bind; [|intros name].
  { apply keeps_try.
    - apply keeps_bind; [apply keeps_on_roles, keeps_getitem|intros servers].
      apply keeps_bind; [apply keeps_py_keys|apply keeps_random_choice].
    - intros e h. destruct e; try discriminate. intros [= <-].
      apply keeps_raise. }
  apply keeps_bind; [apply keeps_on_roles, keeps_getitem|intros servers].
  apply keeps_bind; [apply keeps_py_getitem|intros data].
  apply keeps_named_copy.
Qed.

(** *** Which lookups return *)

(** A staleness check that finds the timer on, or the map fresh, leaves
    the map and the objects alone. *)
Lemma refresh_quiet s w :
  _use_timer s = true
  ∨ (∃ t0, _use_timer s = false ∧ _last_load s = Some t0
           ∧ clock w (ticks w) ≤ t0 + timedelta (_reload_every s)) →
  ∃ w', LiveConfig._reload_if_needed s w = (Ok tt, s, w') ∧ heap w' = heap w.
Proof.
  intros [Ht|(t0 & Ht & Hl & Hle)].
  - exists w. split; [by apply refresh_timer|reflexivity].
  - exists (after_utcnow w). split; [by eapply refresh_fresh|reflexivity].
Qed.

(** A role that lists servers yields a result whenever the second read of
    the role finds the map as the first read left it. *)
Lemma lookup_of_a_listed_role seer w key s1 w1 l servers w2 :
  LiveConfig._reload_if_needed (_roles seer) w = (Ok tt, s1, w1) →
  contents s1 !! key = Some (VRef l) →
  heap w1 !! l = Some servers →
  servers ≠ ∅ →
  (0 <= dice w1 (rolls w1))%Q →
  (dice w1 (rolls w1) < 1)%Q →
  LiveConfig._reload_if_needed s1 (drawn w1) = (Ok tt, s1, w2) →
  heap w2 = heap w1 →
  (∀ name data, servers !! name = Some data →
     is_Some (attributes (heap w1) data)) →
  ∃ name data attrs,
    pick (dice w1 (rolls w1)) (map_to_list servers).*1 = Some name
    ∧ servers !! name = Some data
    ∧ attributes (heap w1) data = Some attrs
    ∧ Seer.__getitem__ key seer w
      = (Ok (VRef (length (heap w1))), mkSeer s1,
         with_heap (heap w1 ++ [<["name" := VStr name]> attrs]) w2).
Proof.
  intros H1 Hk Hl Hne Hr0 Hr1 H2 Hh Hattrs.
  destruct (pick_succeeds _ servers Hr0 Hr1 Hne) as [name Hp].
  destruct (pick_is_key _ _ _ Hp) as [data Hd].
  destruct (Hattrs name data Hd) as [attrs Ha].
  exists name, data, attrs. repeat (split; [done|]).
  pose proof (getitem_after_refresh _ _ key _ _ _ H1) as G1.
  pose proof (getitem_after_refresh _ _ key _ _ _ H2) as G2.
  rewrite Hk in G1, G2. cbn in G1, G2.
  assert (heap w2 !! l = Some servers) as Hl2 by (by rewrite Hh).
  rewrite <- Hh in Ha |- *.
  by eapply lookup_run.
Qed.

(** Reading a returned value backwards through [bind] and the calls. *)
Lemma bind_returned {S A B} (m : M S A) (k : A → M S B) s w b s' w' :
  bind m k s w = (Ok b, s', w') →
  ∃ a s1 w1, m s w = (Ok a, s1, w1) ∧ k a s1 w1 = (Ok b, s', w').
Proof.
  unfold bind. destruct (m s w) as [[[a|e] s1] w1]; [|discriminate].
  intros H. by exists a, s1, w1.
Qed.

Lemma on_roles_returned {A} (m : M LiveConfig A) seer w a seer' w' :
  on_roles m seer w = (Ok a, seer', w') →
  ∃ s', m (_roles seer) w = (Ok a, s', w') ∧ seer' = mkSeer s'.
Proof.
  unfold on_roles. destruct (m (_roles seer) w) as [[r s'] w1].
  intros [= -> <- ->]. by exists s'.
Qed.

Lemma py_keys_returned {S} v (s : S) w names s' w' :
  py_keys v s w = (Ok names, s', w') →
  ∃ l d, v = VRef l ∧ heap w !! l = Some d ∧ names = (map_to_list d).*1
         ∧ s' = s ∧ w' = w.
Proof.
  unfold py_keys. unfold_monad.
  destruct v as [| | | |l]; cbn; try discriminate.
  destruct (heap w !! l) as [d|] eqn:Hl; [|discriminate].
  intros [= <- <- <-]. by exists l, d.
Qed.

Lemma random_choice_returned {S} names (s : S) w name s' w' :
  random_choice names s w = (Ok name, s', w') →
  pick (dice w (rolls w)) names = Some name ∧ s' = s ∧ w' = drawn w.
Proof.
  unfold random_choice, random, pick. unfold_monad.
  destruct (names !! Z.to_nat _) as [x|]; [|discriminate].
  by intros [= <- <- <-].
Qed.

Lemma py_getitem_returned {S} v name (s : S) w x s' w' :
  py_getitem v name s w = (Ok x, s', w') →
  ∃ l d, v = VRef l ∧ heap w !! l = Some d ∧ d !! name = Some x
         ∧ s' = s ∧ w' = w.
Proof.
  unfold py_getitem. unfold_monad.
  destruct v as [| | | |l]; cbn; try discriminate.
  destruct (heap w !! l) as [d|] eqn:Hl; [|discriminate].
  destruct (d !! name) as [y|] eqn:Hy; [|discriminate].
  intros [= <- <- <-]. by exists l, d.
Qed.

Lemma named_copy_returned {S} (s : S) (w : World) data name v s' w' :
  (do data' <- (if truthy (heap w) data then py_dict data else new_dict);
   py_setitem data' "name" (VStr name);;
   ret data') s w = (Ok v, s', w') →
  ∃ attrs, attributes (heap w) data = Some attrs
           ∧ v = VRef (length (heap w)) ∧ s' = s
           ∧ w' = with_heap (heap w ++ [<["name" := VStr name]> attrs]) w.
Proof.
  intros H.
  assert (is_Some (attributes (heap w) data)) as [attrs Ha].
  { unfold attributes. destruct (truthy (heap w) data) eqn:Ht; [|eauto].
    apply bind_returned in H as (d' & s1 & w1 & Hd & _).
    unfold py_dict in Hd. unfold_monad.
    destruct data as [| | |str|l]; try discriminate.
    - cbn in Ht. destruct (String.eqb str EmptyString); discriminate.
    - cbn. destruct (heap w !! l); [eauto|discriminate]. }
  exists attrs. split; [exact Ha|].
  rewrite (named_copy_run s w data attrs name Ha) in H.
  by injection H as <- <- <-.
Qed.

(** Conversely, a lookup returns only along that path: both reads of the
    role give a dictionary, the draw gives one of the names of the first,
    the second binds that name, and the value bound is an attribute mapping
    or is empty or null. *)
Lemma lookup_returned seer w key v seer' w' :
  Seer.__getitem__ key seer w = (Ok v, seer', w') →
  ∃ l1 s1 w1 servers name l2 s2 w2 servers2 data attrs,
    LiveConfig.__getitem__ key (_roles seer) w = (Ok (VRef l1), s1, w1)
    ∧ heap w1 !! l1 = Some servers
    ∧ pick (dice w1 (rolls w1)) (map_to_list servers).*1 = Some name
    ∧ LiveConfig.__getitem__ key s1 (drawn w1) = (Ok (VRef l2), s2, w2)
    ∧ heap w2 !! l2 = Some servers2
    ∧ servers2 !! name = Some data
    ∧ attributes (heap w2) data = Some attrs
    ∧ v = VRef (length (heap w2))
    ∧ seer' = mkSeer s2
    ∧ w' = with_heap (heap w2 ++ [<["name" := VStr name]> attrs]) w2.
Proof.
  unfold Seer.__getitem__. intros H.
  apply bind_returned in H as (name & sa & wa & Hfirst & H).
  assert (∃ l1 s1 w1 servers,
            LiveConfig.__getitem__ key (_roles seer) w = (Ok (VRef l1), s1, w1)
            ∧ heap w1 !! l1 = Some servers
            ∧ pick (dice w1 (rolls w1)) (map_to_list servers).*1 = Some name
            ∧ sa = mkSeer s1 ∧ wa = drawn w1)
    as (l1 & s1 & w1 & servers & H1 & Hl1 & Hp & -> & ->).
  { unfold try_except in Hfirst.
    destruct (bind _ _ seer w) as [[[a|e] s0] w0] eqn:E.
    - injection Hfirst as -> -> ->.
      apply bind_returned in E as (v1 & sb & wb & Hread & E).
      apply on_roles_returned in Hread as (s1 & Hread & ->).
      apply bind_returned in E as (names & sc & wc & Hkeys & E).
      apply py_keys_returned in Hkeys as (l1 & d & -> & Hl1 & -> & -> & ->).
      apply random_choice_returned in E as (Hp & -> & ->).
      by exists l1, s1, wb, d.
    - by destruct e. }
  apply bind_returned in H as (v2 & sb & w2 & Hread & H).
  apply on_roles_returned in Hread as (s2 & H2 & ->).
  apply bind_returned in H as (data & sc & wc & Hget & H).
  apply py_getitem_returned in Hget as (l2 & servers2 & -> & Hl2 & Hd & -> & ->).
  apply bind_returned in H as (w0 & sd & wd & [= <- <- <-] & H).
  apply named_copy_returned in H as (attrs & Ha & -> & -> & ->).
  eexists _, _, _, _, _, _, _, _, _, _, _. repeat split; eassumption.
Qed.

(** C6, as stated, fails: a caller tells the two cases apart.  The same
    lookup, of the role [empty], raises [KeyError] with the argument
    [empty not found] where the role file binds the role to an empty
    mapping, and with the argument [empty] where the file does not list the
    role.  The first also consumes a draw of the random source, the second
    none. *)
Lemma C6_empty_role_is_told_apart :
  ∃ seer w,
    Seer.__init__ "roles.yaml" false empty_role_world = (Ok seer, w)
    ∧ Seer.__init__ "roles.yaml" false masters_world
      = (Ok masters_seer, masters_loaded)
    ∧ (Seer.__getitem__ "empty" seer w).1.1
      = Raise (KeyError "empty not found")
    ∧ (Seer.__getitem__ "empty" masters_seer masters_loaded).1.1
      = Raise (KeyError "empty")
    ∧ KeyError "empty not found" ≠ KeyError "empty"
    ∧ rolls (Seer.__getitem__ "empty" seer w).2 = S (rolls w)
    ∧ rolls (Seer.__getitem__ "empty" masters_seer masters_loaded).2
      = rolls masters_loaded.
Proof.
  eexists _, _. split; [vm_compute; reflexivity|].
  repeat split; try (vm_compute; reflexivity). discriminate.
Qed.

(** C6, amended. A role bound to an empty server mapping and a role that
    is not bound at all both make the lookup raise an exception of the same
    class, [KeyError]: the first from the translated [IndexError] of the
    empty selection, with the argument [<role> not found], the second from
    the map itself, with the role as its argument. *)
Theorem C6_empty_role_raises_like_missing_role seer w absent empty l s1 w1 :
  LiveConfig._reload_if_needed (_roles seer) w = (Ok tt, s1, w1) →
  contents s1 !! absent = None →
  contents s1 !! empty = Some (VRef l) →
  heap w1 !! l = Some ∅ →
  ∃ e1 e2,
    Seer.__getitem__ absent seer w = (Raise e1, mkSeer s1, w1)
    ∧ Seer.__getitem__ empty seer w = (Raise e2, mkSeer s1, drawn w1)
    ∧ e1 = KeyError absent
    ∧ e2 = KeyError (empty +:+ " not found")
    ∧ class_of e1 = class_of e2.
Proof.
  intros Hr Ha He Hl. eexists _, _.
  split; [by apply lookup_absent|].
  split; [by eapply lookup_empty|]. done.
Qed.

Lemma C6_empty_role_raises_like_missing_role_witness :
  ∃ seer w s1 w1 l,
    Seer.__init__ "roles.yaml" false empty_role_world = (Ok seer, w)
    ∧ LiveConfig._reload_if_needed (_roles seer) w = (Ok tt, s1, w1)
    ∧ contents s1 !! "nonexistent" = None
    ∧ contents s1 !! "empty" = Some (VRef l)
    ∧ heap w1 !! l = Some ∅
    ∧ ∃ e1 e2,
        Seer.__getitem__ "nonexistent" seer w = (Raise e1, mkSeer s1, w1)
        ∧ Seer.__getitem__ "empty" seer w = (Raise e2, mkSeer s1, drawn w1)
        ∧ e1 = KeyError "nonexistent"
        ∧ e2 = KeyError "empty not found"
        ∧ class_of e1 = class_of e2.
Proof.
  eexists _, _, _, _, _.
  split; [vm_compute; reflexivity|].
  split; [vm_compute; reflexivity|].
  split; [vm_compute; reflexivity|].
  split; [vm_compute; reflexivity|].
  split; [vm_compute; reflexivity|].
  eapply (C6_empty_role_raises_like_missing_role _ _ "nonexistent" "empty");
    vm_compute; reflexivity.
Defined.

(** C7. A lookup reads the role, draws one of its server names, reads the
    role again and takes the value stored under the drawn name.  When the
    role has a non-empty server mapping the draw succeeds and the drawn
    name is one of its keys; and when the stored value is an attribute
    mapping, or is empty or null, the lookup returns a new dictionary that
    binds [name] to the drawn name and every other key as the stored
    mapping does (no other key for an empty or null value).  Every object
    that existed before, the stored mapping among them, is as it was. *)
Theorem C7_lookup_returns_a_named_copy
  seer w key l1 s1 w1 servers name l2 s2 w2 servers2 data attrs :
  LiveConfig.__getitem__ key (_roles seer) w = (Ok (VRef l1), s1, w1) →
  heap w1 !! l1 = Some servers →
  servers ≠ ∅ →
  (0 <= dice w1 (rolls w1))%Q →
  (dice w1 (rolls w1) < 1)%Q →
  is_Some (pick (dice w1 (rolls w1)) (map_to_list servers).*1)
  ∧ (pick (dice w1 (rolls w1)) (map_to_list servers).*1 = Some name →
     LiveConfig.__getitem__ key s1 (drawn w1) = (Ok (VRef l2), s2, w2) →
     heap w2 !! l2 = Some servers2 →
     servers2 !! name = Some data →
     attributes (heap w2) data = Some attrs →
     is_Some (servers !! name)
     ∧ ∃ w',
         Seer.__getitem__ key seer w
         = (Ok (VRef (length (heap w2))), mkSeer s2, w')
         ∧ heap w' !! length (heap w2) = Some (<["name" := VStr name]> attrs)
         ∧ (<["name" := VStr name]> attrs) !! "name" = Some (VStr name)
         ∧ (∀ k, k ≠ "name" →
              (<["name" := VStr name]> attrs) !! k = attrs !! k)
         ∧ (∀ l, (l < length (heap w2))%nat → heap w' !! l = heap w2 !! l)
         ∧ (∀ l, (l < length (heap w))%nat → heap w' !! l = heap w !! l)).
Proof.
  intros H1 Hl1 Hne Hr0 Hr1. split; [by apply pick_succeeds|].
  intros Hp H2 Hl2 Hd Ha. split; [by eapply pick_is_key|].
  pose proof (lookup_keeps_objects key seer w) as Hkeep.
  erewrite lookup_run in Hkeep by eassumption.
  eexists. split; [by eapply lookup_run|]. cbn.
  split; [rewrite lookup_app_r by lia; by rewrite Nat.sub_diag|].
  split; [apply lookup_insert_eq|].
  split; [intros k Hk; by apply lookup_insert_ne|].
  split; [intros l Hlt; by apply lookup_app_l|].
  intros l Hlt. by apply (extends_lookup w _ l Hkeep).
Qed.

Lemma C7_lookup_returns_a_named_copy_witness :
  Seer.__init__ "roles.yaml" false masters_world = (Ok masters_seer, masters_loaded)
  ∧ LiveConfig.__getitem__ "master" (_roles masters_seer) masters_loaded
    = (Ok (VRef 2), _roles masters_seer, after_utcnow masters_loaded)
  ∧ heap (after_utcnow masters_loaded) !! 2%nat = Some masters_servers
  ∧ masters_servers ≠ ∅
  ∧ (0 <= 1 # 2)%Q
  ∧ (1 # 2 < 1)%Q
  ∧ pick (1 # 2) (map_to_list masters_servers).*1 = Some "b"
  ∧ LiveConfig.__getitem__ "master" (_roles masters_seer)
      (drawn (after_utcnow masters_loaded))
    = (Ok (VRef 2), _roles masters_seer,
       after_utcnow (drawn (after_utcnow masters_loaded)))
  ∧ heap (after_utcnow (drawn (after_utcnow masters_loaded))) !! 2%nat
    = Some masters_servers
  ∧ masters_servers !! "b" = Some (VRef 1)
  ∧ attributes (heap (after_utcnow (drawn (after_utcnow masters_loaded))))
      (VRef 1) = Some {[ "ip" := VStr "2.2.2.2" ]}
  ∧ ∃ w',
      Seer.__getitem__ "master" masters_seer masters_loaded
      = (Ok (VRef 4), masters_seer, w')
      ∧ heap w' !! 4%nat
        = Some {[ "ip" := VStr "2.2.2.2"; "name" := VStr "b" ]}
      ∧ ∀ l, (l < 4)%nat → heap w' !! l = masters_heap !! l.
Proof.
  assert (masters_servers ≠ ∅) as Hne
    by (intros H%(f_equal (lookup "a")); vm_compute in H; discriminate).
  assert (0 <= 1 # 2)%Q as Hr0 by (by vm_compute).
  assert (1 # 2 < 1)%Q as Hr1 by (by vm_compute).
  split; [vm_compute; reflexivity|].
  split; [vm_compute; reflexivity|].
  split; [vm_compute; reflexivity|].
  split; [exact Hne|]. split; [exact Hr0|]. split; [exact Hr1|].
  split; [vm_compute; reflexivity|].
  split; [vm_compute; reflexivity|].
  split; [vm_compute; reflexivity|].
  split; [vm_compute; reflexivity|].
  split; [vm_compute; reflexivity|].
  destruct (C7_lookup_returns_a_named_copy
              masters_seer masters_loaded "master"
              2%nat (_roles masters_seer) (after_utcnow masters_loaded)
              masters_servers "b"
              2%nat (_roles masters_seer)
              (after_utcnow (drawn (after_utcnow masters_loaded)))
              masters_servers (VRef 1) {[ "ip" := VStr "2.2.2.2" ]})
    as [_ Hrun];
    [vm_compute; reflexivity|vm_compute; reflexivity|exact Hne|exact Hr0
    |exact Hr1|].
  destruct Hrun as [_ (w' & Hrun & Hobj & _ & _ & Hold & _)];
    [vm_compute; reflexivity..|].
  exists w'. split; [exact Hrun|]. split; [exact Hobj|exact Hold].
Defined.

(** * Further properties of the code *)

(** ** Attribute access *)

(** X1. [__getattr__(key)], the method Python calls for [cfg.key] when the
    ordinary lookup finds no attribute of that name (it finds the fields
    set by the constructor and the methods of the class and of [dict]),
    refreshes the map as item lookup does and returns the value bound to
    the key; for a key that is not bound it raises [AttributeError], and
    whatever it raises is never a [KeyError]. *)
Theorem X1_getattr_reads_the_entry s w key :
  match LiveConfig._reload_if_needed s w with
  | (Ok _, s', w') =>
      LiveConfig.__getattr__ key s w
      = (match contents s' !! key with
         | Some v => Ok v
         | None => Raise (AttributeError ("No attribute " +:+ key))
         end, s', w')
  | (Raise e, s', w') =>
      LiveConfig.__getattr__ key s w = (Raise e, s', w')
      ∧ class_of e ≠ KeyError_
  end.
Proof.
  destruct (LiveConfig._reload_if_needed s w) as [[r s'] w'] eqn:E.
  pose proof (refresh_never_KeyError s w) as Hk. rewrite E in Hk.
  pose proof (getitem_after_refresh s w key _ _ _ E) as Hg.
  unfold LiveConfig.__getattr__.
  destruct r as [[]|e]; unfold try_except; rewrite Hg.
  - by destruct (contents s' !! key).
  - specialize (Hk e eq_refl).
    destruct e; try (split; [reflexivity|cbn; discriminate]).
    by destruct (Hk arg).
Qed.

(** ** Timer mode *)

(** X2. With the timer on and an interval that Python can represent as a
    duration (the duration is built before the timer flag is looked at), a
    keyed read never looks at the clock or the file system: item lookup,
    [get] and [__getattr__(key)] answer from the map as it is and leave the
    map and the world untouched, at whatever time and even before any
    stamp. *)
Theorem X2_timer_mode_reads_touch_nothing s w key default :
  _use_timer s = true →
  representable (_reload_every s) →
  LiveConfig.__getitem__ key s w
    = (entry_or_KeyError key (contents s !! key), s, w)
  ∧ LiveConfig.get key default s w
    = (Ok (value_or default (contents s !! key)), s, w)
  ∧ LiveConfig.__getattr__ key s w
    = (match contents s !! key with
       | Some v => Ok v
       | None => Raise (AttributeError ("No attribute " +:+ key))
       end, s, w).
Proof.
  intros Ht _. pose proof (refresh_timer s w Ht) as H.
  pose proof (getitem_after_refresh s w key _ _ _ H) as Hg.
  split; [exact Hg|].
  split; [exact (get_after_refresh s w key default _ _ _ H)|].
  unfold LiveConfig.__getattr__. unfold try_except at 1. rewrite Hg.
  by destruct (contents s !! key).
Qed.

Lemma X2_timer_mode_reads_touch_nothing_witness :
  _use_timer timer_config = true
  ∧ representable (_reload_every timer_config)
  ∧ LiveConfig.__getitem__ "k" timer_config locked_world
    = (Ok (VInt 1), timer_config, locked_world)
  ∧ LiveConfig.get "missing" (VInt 7) timer_config locked_world
    = (Ok (VInt 7), timer_config, locked_world)
  ∧ LiveConfig.__getattr__ "missing" timer_config locked_world
    = (Raise (AttributeError "No attribute missing"), timer_config, locked_world).
Proof.
  assert (representable (_reload_every timer_config)) as Hrep
    by (split; by vm_compute).
  split; [reflexivity|]. split; [exact Hrep|].
  destruct (X2_timer_mode_reads_touch_nothing
              timer_config locked_world "k" VNone eq_refl Hrep)
    as (Hitem & _ & _).
  destruct (X2_timer_mode_reads_touch_nothing
              timer_config locked_world "missing" (VInt 7) eq_refl Hrep)
    as (_ & Hget & Hattr).
  split; [exact Hitem|]. split; [exact Hget|exact Hattr].
Defined.

(** ** The constructor *)

Lemma periodic_app tr1 tr2 : periodic (tr1 ++ tr2) = periodic tr1 ++ periodic tr2.
Proof.
  induction tr1 as [|e tr1 IH]; [reflexivity|].
  destruct e; cbn; rewrite IH; reflexivity.
Qed.

Lemma reload_registers_nothing s w :
  periodic (trace (LiveConfig._reload s w).2) = periodic (trace w).
Proof.
  reload_cases; try congruence; rewrite !periodic_app; cbn;
    by rewrite ?app_nil_r.
Qed.

(** X3. The constructor keeps its three arguments in the object, stamps it
    with the clock reading of its reload, and registers a periodic callback
    exactly when [use_timer] is set: one callback, of period
    [reload_every * 1000] milliseconds.  In pull mode it registers none. *)
Theorem X3_constructor_registers_the_timer filename reload_every use_timer w s w' :
  LiveConfig.__init__ filename reload_every use_timer w = (Ok s, w') →
  _filename s = filename
  ∧ _reload_every s = reload_every
  ∧ _use_timer s = use_timer
  ∧ _last_load s = Some (clock w (ticks w))
  ∧ periodic (trace w')
    = periodic (trace w) ++ (if use_timer then [reload_every * 1000] else []).
Proof.
  unfold LiveConfig.__init__.
  set (s0 := mkLiveConfig ∅ filename reload_every use_timer None).
  pose proof (reload_fields s0 w) as (Hl & Hf & He & Ht).
  pose proof (reload_registers_nothing s0 w) as Hp.
  unfold bind at 1.
  destruct (LiveConfig._reload s0 w) as [[[[]|e] s1] w1]; [|discriminate].
  cbn in Hl, Hf, He, Ht, Hp.
  destruct use_timer; cbn; intros [= <- <-]; cbn;
    rewrite ?periodic_app, ?Hp, ?app_nil_r; by repeat split.
Qed.

Lemma X3_constructor_registers_the_timer_witness :
  ∃ s w',
    LiveConfig.__init__ "roles.yaml" 60 true yaml_world = (Ok s, w')
    ∧ _filename s = "roles.yaml"
    ∧ _reload_every s = 60
    ∧ _use_timer s = true
    ∧ _last_load s = Some (clock yaml_world (ticks yaml_world))
    ∧ periodic (trace w') = periodic (trace yaml_world) ++ [60 * 1000].
Proof.
  eexists _, _. split; [vm_compute; reflexivity|].
  apply (X3_constructor_registers_the_timer "roles.yaml" 60 true yaml_world).
  vm_compute; reflexivity.
Defined.

(** X4. A reload raises exactly when the path exists but cannot be opened:
    [open] is outside the [try].  What is raised is the [IOError] of
    [open]; the stamp is set and the contents are as before.  The
    constructor raises in exactly the same case.  No exception of a
    deserializer or of [update] leaves a reload. *)
Theorem X4_reload_raises_only_when_open_fails s w filename reload_every use_timer :
  (fs w (_filename s) = Unreadable →
     LiveConfig._reload s w
     = (Raise (IOError (_filename s)), stamped s w, probed s w true))
  ∧ (fs w (_filename s) ≠ Unreadable → (LiveConfig._reload s w).1.1 = Ok tt)
  ∧ (fs w filename = Unreadable →
       (LiveConfig.__init__ filename reload_every use_timer w).1
       = Raise (IOError filename))
  ∧ (fs w filename ≠ Unreadable →
       ∃ s0, (LiveConfig.__init__ filename reload_every use_timer w).1 = Ok s0).
Proof.
  split; [apply reload_unreadable|].
  split.
  { intros Hne. by destruct (reload_outcome s w) as [H|[_ H]]. }
  unfold LiveConfig.__init__.
  set (s0 := mkLiveConfig ∅ filename reload_every use_timer None).
  split.
  - intros Hfs. unfold bind at 1.
    by rewrite (reload_unreadable s0 w Hfs).
  - intros Hne. unfold bind at 1.
    destruct (reload_outcome s0 w) as [H|[_ H]]; [|done].
    destruct (LiveConfig._reload s0 w) as [[r s1] w1]. cbn in H. subst r.
    destruct use_timer; cbn; eauto.
Qed.

(** ** What a reload leaves in the map *)

Lemma logged_app tr1 tr2 : logged (tr1 ++ tr2) = logged tr1 ++ logged tr2.
Proof.
  induction tr1 as [|e tr1 IH]; [reflexivity|].
  destruct e; cbn; rewrite IH; reflexivity.
Qed.

Lemma each_item_mono (P Q : pyval → pytree → Prop) d items :
  (∀ v t, P v t → Q v t) → each_item P d items → each_item Q d items.
Proof.
  intros HPQ. induction items as [|[k t] rest IH]; [done|].
  cbn. intros [Hk Hrest]. split; [|by apply IH].
  intros Hnot. destruct (Hk Hnot) as (v & Hv & Hrep). eauto.
Qed.

Lemma represents_mono : ∀ t h new v, represents h v t → represents (h ++ new) v t.
Proof.
  fix IH 1. intros [| | | |items] h new v; cbn [represents]; try done.
  intros (l & d & -> & Hl & Hkeys & Heach).
  exists l, d. split; [done|]. split; [by apply lookup_app_l_Some|].
  split; [done|]. clear Hkeys Hl.
  induction items as [|[k t] rest IHrest]; [done|].
  cbn in Heach |- *. destruct Heach as [Hk Hrest]. split; [|by apply IHrest].
  intros Hnot. destruct (Hk Hnot) as (v' & Hv & Hrep).
  exists v'. split; [done|]. by apply IH.
Qed.

Lemma construct_represents : ∀ t h, represents (construct t h).2 (construct t h).1 t.
Proof.
  fix IH 1. intros [| | | |items] h; cbn [construct represents]; try done.
  assert (∀ acc,
            (∃ new, (fill construct items acc).2 = acc.2 ++ new)
            ∧ (∀ k, k ∉ items.*1 → (fill construct items acc).1 !! k = acc.1 !! k)
            ∧ (∀ k, k ∈ items.*1 → is_Some ((fill construct items acc).1 !! k))
            ∧ each_item (λ v t, represents (fill construct items acc).2 v t)
                (fill construct items acc).1 items) as Hfill.
  { induction items as [|[k t] rest IHrest]; intros acc.
    - cbn. split; [exists []; by rewrite app_nil_r|]. split; [done|].
      split; [|done]. intros k Hk. by apply elem_of_nil in Hk.
    - cbn [fill]. pose proof (IH t acc.2) as Ht.
      destruct (construct_extends t acc.2) as [n1 Hn1].
      destruct (construct t acc.2) as [v h1]. cbn in Ht, Hn1.
      destruct (IHrest (<[k := v]> acc.1, h1)) as ((n2 & Hn2) & Hout & Hin & Heach).
      cbn in Hn2, Hout.
      split; [exists (n1 ++ n2); rewrite Hn2, Hn1; by rewrite app_assoc|].
      split.
      { intros k' Hk'. cbn in Hk'. apply not_elem_of_cons in Hk' as [Hne Hk'].
        rewrite Hout by done. by rewrite lookup_insert_ne. }
      split.
      { intros k' Hk'. cbn in Hk'. apply elem_of_cons in Hk' as [->|Hk'].
        - destruct (decide (k ∈ rest.*1)) as [Hk|Hk]; [by apply Hin|].
          rewrite Hout by done. rewrite lookup_insert_eq. eauto.
        - by apply Hin. }
      cbn. split; [|done]. intros Hnot. exists v.
      split; [rewrite Hout by done; by rewrite lookup_insert_eq|].
      rewrite Hn2. by apply represents_mono. }
  destruct (Hfill (∅, h)) as (_ & Hout & Hin & Heach).
  destruct (fill construct items (∅, h)) as [d h']. cbn in Hout, Hin, Heach |- *.
  exists (length h'), d. split; [done|].
  split; [rewrite lookup_app_r by lia; by rewrite Nat.sub_diag|].
  split.
  - intros k. split; [|apply Hin].
    intros Hsome. destruct (decide (k ∈ items.*1)) as [|Hk]; [done|].
    rewrite (Hout k Hk), fin_maps.lookup_empty in Hsome. by destruct Hsome.
  - eapply each_item_mono; [|exact Heach].
    intros v t. apply represents_mono.
Qed.

Lemma top_mapping_represents items h :
  (∀ k, is_Some (top_mapping items h !! k) ↔ k ∈ items.*1)
  ∧ each_item (represents (top_heap items h)) (top_mapping items h) items.
Proof.
  pose proof (construct_represents (TDict items) h) as H.
  destruct (construct_mapping items h) as (l & Hc & Hl). rewrite Hc in H.
  cbn [represents fst snd] in H.
  destruct H as (l' & d & [= <-] & Hd & Hkeys & Heach).
  rewrite Hl in Hd. injection Hd as <-. done.
Qed.

Lemma last_binding_None k items : last_binding k items = None → k ∉ items.*1.
Proof.
  induction items as [|[k' t] rest IH]; cbn; [intros _; apply not_elem_of_nil|].
  destruct (last_binding k rest); [discriminate|].
  destruct (String.eqb_spec k' k) as [|Hne]; [discriminate|].
  intros _. apply not_elem_of_cons. split; [congruence|by apply IH].
Qed.

Lemma each_item_last_binding rep d items k t :
  each_item rep d items → last_binding k items = Some t →
  ∃ v, d !! k = Some v ∧ rep v t.
Proof.
  induction items as [|[k' t'] rest IH]; cbn; [discriminate|].
  intros [Hk Hrest]. destruct (last_binding k rest) as [t''|] eqn:E.
  - intros [= ->]. by apply IH.
  - destruct (String.eqb_spec k' k) as [->|]; [|discriminate].
    intros [= ->]. apply Hk. by apply last_binding_None.
Qed.

Lemma reload_document s w c items :
  fs w (_filename s) = File c →
  document_of s w c = Some (TDict items) →
  LiveConfig._reload s w =
    (Ok tt, set_contents (top_mapping items (heap w)) (stamped s w),
     with_heap (top_heap items (heap w)) (opened s w)).
Proof.
  intros Hfs Hdoc. unfold document_of in Hdoc.
  destruct (endswith (_filename s) ".yaml") eqn:Hy.
  - by eapply reload_yaml_mapping.
  - destruct (endswith (_filename s) ".json") eqn:Hj; [|discriminate].
    by eapply reload_json_mapping.
Qed.

(** X5. A reload that reads a mapping document replaces the contents: the
    map then binds exactly the top-level keys of the document (what the
    previous snapshot bound beside them is gone), each key to an object
    that represents the document's entry for it, nested mappings
    included (the last entry, when a key is repeated).  Nothing is
    logged. *)
Theorem X5_reload_replaces_the_contents s w c items :
  fs w (_filename s) = File c →
  document_of s w c = Some (TDict items) →
  ∃ s' w',
    LiveConfig._reload s w = (Ok tt, s', w')
    ∧ (∀ k, is_Some (contents s' !! k) ↔ k ∈ items.*1)
    ∧ (∀ k t, last_binding k items = Some t →
         ∃ v, contents s' !! k = Some v ∧ represents (heap w') v t)
    ∧ logged (trace w') = logged (trace w).
Proof.
  intros Hfs Hdoc. eexists _, _.
  split; [by eapply reload_document|]. cbn.
  destruct (top_mapping_represents items (heap w)) as [Hkeys Heach].
  split; [exact Hkeys|]. split.
  - intros k t Hlast. by eapply each_item_last_binding.
  - rewrite !logged_app. cbn. by rewrite !app_nil_r.
Qed.

Lemma X5_reload_replaces_the_contents_witness :
  fs yaml_world (_filename loaded_config) = File masters_text
  ∧ document_of loaded_config yaml_world masters_text
    = Some (TDict [("master",
                    TDict [("a", TDict [("ip", TStr "1.1.1.1")]);
                           ("b", TDict [("ip", TStr "2.2.2.2")])])])
  ∧ ∃ s' w',
      LiveConfig._reload loaded_config yaml_world = (Ok tt, s', w')
      ∧ (is_Some (contents s' !! "master") ↔ "master" ∈ ["master"])
      ∧ (is_Some (contents s' !! "k") ↔ "k" ∈ ["master"])
      ∧ (∃ v, contents s' !! "master" = Some v
              ∧ represents (heap w') v
                  (TDict [("a", TDict [("ip", TStr "1.1.1.1")]);
                          ("b", TDict [("ip", TStr "2.2.2.2")])]))
      ∧ logged (trace w') = logged (trace yaml_world).
Proof.
  split; [reflexivity|]. split; [reflexivity|].
  destruct (X5_reload_replaces_the_contents loaded_config yaml_world masters_text
              _ eq_refl eq_refl) as (s' & w' & Hrun & Hkeys & Hrep & Hlog).
  exists s', w'. split; [exact Hrun|].
  split; [exact (Hkeys "master")|]. split; [exact (Hkeys "k")|].
  split; [exact (Hrep "master" _ eq_refl)|exact Hlog].
Defined.

Lemma reload_scalar s w c t :
  fs w (_filename s) = File c →
  document_of s w c = Some t →
  (∀ items, t ≠ TDict items) →
  ∃ w',
    LiveConfig._reload s w = (Ok tt, set_contents ∅ (stamped s w), w')
    ∧ heap w' = heap w
    ∧ logged (trace w')
      = logged (trace w)
        ++ match t with
           | TStr EmptyString => []
           | _ => [(ERROR, "Bad config format! " +:+ _filename s)]
           end.
Proof.
  intros Hfs Hdoc Hnot. unfold document_of in Hdoc.
  unfold LiveConfig._reload. unfold_calls. unfold_monad. cbn.
  rewrite Hfs. cbn. rewrite Hfs.
  destruct (endswith (_filename s) ".yaml");
    [|destruct (endswith (_filename s) ".json"); [|discriminate]];
    cbn; rewrite Hdoc;
    (destruct t as [| | |[|a str]|items]; [..|by destruct (Hnot items)]);
    cbn; eexists; (split; [reflexivity|]); (split; [reflexivity|]);
    cbn; rewrite !logged_app; cbn; by rewrite ?app_nil_r.
Qed.

(** X6. A file that parses, but to something that is not a mapping (the
    [None] of an empty YAML document, a number, a boolean, a string),
    leaves the map empty: [clear()] has run when [update] rejects the
    value.  The reload returns, builds no object, and logs the format
    error, except for the empty string, which [update] accepts as no
    entries at all. *)
Theorem X6_scalar_document_empties_the_map s w c t :
  fs w (_filename s) = File c →
  document_of s w c = Some t →
  (∀ items, t ≠ TDict items) →
  ∃ w',
    LiveConfig._reload s w = (Ok tt, set_contents ∅ (stamped s w), w')
    ∧ heap w' = heap w
    ∧ logged (trace w')
      = logged (trace w)
        ++ match t with
           | TStr EmptyString => []
           | _ => [(ERROR, "Bad config format! " +:+ _filename s)]
           end.
Proof. apply reload_scalar. Qed.

Lemma X6_scalar_document_empties_the_map_witness :
  fs (roles_world (File EmptyString) 0 0 []) (_filename loaded_config)
  = File EmptyString
  ∧ document_of loaded_config (roles_world (File EmptyString) 0 0 []) EmptyString
    = Some TNone
  ∧ (∀ items, TNone ≠ TDict items)
  ∧ is_Some (contents loaded_config !! "k")
  ∧ ∃ w',
      LiveConfig._reload loaded_config (roles_world (File EmptyString) 0 0 [])
      = (Ok tt,
         set_contents ∅ (stamped loaded_config (roles_world (File EmptyString) 0 0 [])),
         w')
      ∧ heap w' = heap (roles_world (File EmptyString) 0 0 [])
      ∧ logged (trace w')
        = logged (trace (roles_world (File EmptyString) 0 0 []))
          ++ [(ERROR, "Bad config format! roles.yaml")].
Proof.
  split; [reflexivity|]. split; [reflexivity|]. split; [discriminate|].
  split; [vm_compute; eauto|].
  apply (X6_scalar_document_empties_the_map
           loaded_config (roles_world (File EmptyString) 0 0 []) EmptyString TNone);
    [reflexivity|reflexivity|discriminate].
Defined.

(** X7. For a file whose document is built of mappings and scalars, a
    reload logs at most one record: the warning for a missing file, nothing
    when [open] fails or when a mapping (or the empty string) is loaded,
    and the format error otherwise: for an unsupported suffix, for content
    the deserializer rejects, and for a document that is [None], a boolean,
    a number or a non-empty string. *)
Theorem X7_reload_logs_at_most_one_record s w :
  logged (trace (LiveConfig._reload s w).2)
  = logged (trace w)
    ++ match fs w (_filename s) with
       | Missing => [(WARNING, _filename s +:+ " not found")]
       | Unreadable => []
       | File c =>
           match document_of s w c with
           | Some (TDict _) | Some (TStr EmptyString) => []
           | Some TNone | Some (TBool _) | Some (TInt _)
           | Some (TStr (String _ _)) | None =>
               [(ERROR, "Bad config format! " +:+ _filename s)]
           end
       end.
Proof.
  destruct (fs w (_filename s)) as [| |c] eqn:Hfs.
  - rewrite (reload_missing s w Hfs). cbn. rewrite !logged_app. cbn.
    by rewrite !app_nil_r.
  - rewrite (reload_unreadable s w Hfs). cbn. rewrite !logged_app. cbn.
    by rewrite !app_nil_r.
  - destruct (document_of s w c) as [t|] eqn:Hdoc.
    + destruct (match t with TDict _ => true | _ => false end) eqn:Hd.
      * destruct t as [| | | |items]; try discriminate.
        rewrite (reload_document s w c items Hfs Hdoc). cbn.
        rewrite !logged_app. cbn. by rewrite !app_nil_r.
      * destruct (reload_scalar s w c t Hfs Hdoc) as (w' & Hrun & _ & Hlog).
        { intros items ->. discriminate. }
        rewrite Hrun. cbn. rewrite Hlog.
        by destruct t as [| | |[|a str]|items].
    + unfold document_of in Hdoc.
      destruct (endswith (_filename s) ".yaml") eqn:Hy;
        [rewrite (reload_yaml_unparsable s w c Hfs Hy Hdoc)|
         destruct (endswith (_filename s) ".json") eqn:Hj;
         [rewrite (reload_json_unparsable s w c Hfs Hy Hj Hdoc)|
          rewrite (reload_unsupported s w c Hfs Hy Hj)]];
        cbn; rewrite !logged_app; cbn; by rewrite !app_nil_r.
Qed.

(** ** The fields of the object *)

Lemma refresh_fields s w :
  let s' := (LiveConfig._reload_if_needed s w).1.2 in
  _filename s' = _filename s ∧ _reload_every s' = _reload_every s
  ∧ _use_timer s' = _use_timer s.
Proof.
  destruct (refresh_cases s w) as [H|[H|[[_ H]|H]]]; rewrite H; cbn; try done.
  by destruct (reload_fields s (after_utcnow w)) as (_ & ? & ? & ?).
Qed.

Lemma call_keeps_fields c s w :
  _filename (after_call c s w) = _filename s
  ∧ _reload_every (after_call c s w) = _reload_every s
  ∧ _use_timer (after_call c s w) = _use_timer s.
Proof.
  pose proof (refresh_fields s w) as Hr.
  destruct (LiveConfig._reload_if_needed s w) as [[r s'] w'] eqn:E.
  cbn in Hr.
  destruct c as [|key|key default|key|key|key val|key val]; cbn [after_call].
  - by destruct (reload_fields s w) as (_ & ? & ? & ?).
  - rewrite (getitem_after_refresh s w key _ _ _ E). by destruct r.
  - rewrite (get_after_refresh s w key default _ _ _ E). by destruct r.
  - unfold LiveConfig.__getattr__, try_except.
    rewrite (getitem_after_refresh s w key _ _ _ E).
    destruct r as [?|e].
    + by destruct (contents s' !! key).
    + by destruct e.
  - done.
  - done.
  - done.
Qed.

(** X8. The file name, the interval and the timer flag are fixed when the
    object is made: no call, in whatever world, changes them. *)
Theorem X8_configuration_is_fixed s0 s :
  reachable s0 s →
  _filename s = _filename s0
  ∧ _reload_every s = _reload_every s0
  ∧ _use_timer s = _use_timer s0.
Proof.
  induction 1 as [|s c w _ (IHf & IHe & IHt)]; [done|].
  destruct (call_keeps_fields c s w) as (Hf & He & Ht).
  by rewrite Hf, He, Ht.
Qed.

Lemma X8_configuration_is_fixed_witness :
  reachable loaded_config
    (after_call (CallSetitem "x" VNone)
       (after_call CallReload loaded_config yaml_world) world_at_161)
  ∧ _filename (after_call (CallSetitem "x" VNone)
                 (after_call CallReload loaded_config yaml_world) world_at_161)
    = "roles.yaml"
  ∧ _reload_every (after_call (CallSetitem "x" VNone)
                     (after_call CallReload loaded_config yaml_world) world_at_161)
    = 60
  ∧ _use_timer (after_call (CallSetitem "x" VNone)
                  (after_call CallReload loaded_config yaml_world) world_at_161)
    = false.
Proof.
  split; [apply reach_call, reach_call, reach_constructed|].
  apply (X8_configuration_is_fixed loaded_config).
  apply reach_call, reach_call, reach_constructed.
Defined.

(** ** Reads that find the map overdue *)

(** X9. In pull mode a keyed read that finds the map overdue and the file
    gone still answers from the snapshot it has: item lookup and [get]
    behave as on a fresh map, the warning is logged, and the attempt
    restarts the interval (the stamp is the second clock reading of the
    read). *)
Theorem X9_overdue_read_of_a_vanished_file s w key default t0 :
  _use_timer s = false →
  _last_load s = Some t0 →
  t0 + timedelta (_reload_every s) < clock w (ticks w) →
  fs w (_filename s) = Missing →
  ∃ w',
    LiveConfig.__getitem__ key s w
    = (entry_or_KeyError key (contents s !! key),
       set_last_load (clock w (S (ticks w))) s, w')
    ∧ LiveConfig.get key default s w
      = (Ok (value_or default (contents s !! key)),
         set_last_load (clock w (S (ticks w))) s, w')
    ∧ logged (trace w')
      = logged (trace w) ++ [(WARNING, _filename s +:+ " not found")].
Proof.
  intros Ht Hl Hlt Hfs.
  pose proof (refresh_stale s w t0 Ht Hl Hlt) as H.
  rewrite (reload_missing s (after_utcnow w) Hfs) in H.
  eexists. split; [exact (getitem_after_refresh s w key _ _ _ H)|].
  split; [exact (get_after_refresh s w key default _ _ _ H)|].
  cbn. rewrite !logged_app. cbn. by rewrite !app_nil_r.
Qed.

Lemma X9_overdue_read_of_a_vanished_file_witness :
  _use_timer loaded_config = false
  ∧ _last_load loaded_config = Some (timedelta 100)
  ∧ timedelta 100 + timedelta (_reload_every loaded_config)
    < clock world_at_161 (ticks world_at_161)
  ∧ fs world_at_161 (_filename loaded_config) = Missing
  ∧ ∃ w',
      LiveConfig.__getitem__ "k" loaded_config world_at_161
      = (Ok (VInt 1), set_last_load (timedelta 162) loaded_config, w')
      ∧ LiveConfig.get "k" VNone loaded_config world_at_161
        = (Ok (VInt 1), set_last_load (timedelta 162) loaded_config, w')
      ∧ logged (trace w')
        = logged (trace world_at_161) ++ [(WARNING, "roles.yaml not found")].
Proof.
  split; [reflexivity|]. split; [reflexivity|]. split; [reflexivity|].
  split; [reflexivity|].
  apply (X9_overdue_read_of_a_vanished_file
           loaded_config world_at_161 "k" VNone (timedelta 100));
    reflexivity.
Defined.

(** X10. In pull mode a keyed read that finds the map overdue and the file
    present but impossible to open raises the [IOError] of [open], also
    from [get], whose default covers a missing key only.  The failed
    attempt has set the stamp all the same, so a later read within the
    interval answers from the old snapshot without touching the file. *)
Theorem X10_overdue_read_of_an_unreadable_file s w key default t0 :
  _use_timer s = false →
  _last_load s = Some t0 →
  t0 + timedelta (_reload_every s) < clock w (ticks w) →
  fs w (_filename s) = Unreadable →
  LiveConfig.__getitem__ key s w
    = (Raise (IOError (_filename s)), set_last_load (clock w (S (ticks w))) s,
       probed s (after_utcnow w) true)
  ∧ LiveConfig.get key default s w
    = (Raise (IOError (_filename s)), set_last_load (clock w (S (ticks w))) s,
       probed s (after_utcnow w) true)
  ∧ ∀ w2,
      clock w2 (ticks w2) ≤ clock w (S (ticks w)) + timedelta (_reload_every s) →
      LiveConfig.get key default (set_last_load (clock w (S (ticks w))) s) w2
      = (Ok (value_or default (contents s !! key)),
         set_last_load (clock w (S (ticks w))) s, after_utcnow w2).
Proof.
  intros Ht Hl Hlt Hfs.
  pose proof (refresh_stale s w t0 Ht Hl Hlt) as H.
  rewrite (reload_unreadable s (after_utcnow w) Hfs) in H.
  split; [exact (getitem_after_refresh s w key _ _ _ H)|].
  split; [exact (get_after_refresh s w key default _ _ _ H)|].
  intros w2 Hle.
  exact (get_after_refresh _ w2 key default _ _ _
           (refresh_fresh (set_last_load (clock w (S (ticks w))) s) w2
              (clock w (S (ticks w))) Ht eq_refl Hle)).
Qed.

Lemma X10_overdue_read_of_an_unreadable_file_witness :
  _use_timer loaded_config = false
  ∧ _last_load loaded_config = Some (timedelta 100)
  ∧ timedelta 100 + timedelta (_reload_every loaded_config)
    < clock locked_world (ticks locked_world)
  ∧ fs locked_world (_filename loaded_config) = Unreadable
  ∧ LiveConfig.get "k" VNone loaded_config locked_world
    = (Raise (IOError "roles.yaml"), set_last_load (timedelta 162) loaded_config,
       probed loaded_config (after_utcnow locked_world) true)
  ∧ LiveConfig.get "k" VNone (set_last_load (timedelta 162) loaded_config)
      locked_world
    = (Ok (VInt 1), set_last_load (timedelta 162) loaded_config,
       after_utcnow locked_world).
Proof.
  split; [reflexivity|]. split; [reflexivity|]. split; [reflexivity|].
  split; [reflexivity|].
  destruct (X10_overdue_read_of_an_unreadable_file
              loaded_config locked_world "k" VNone (timedelta 100)
              eq_refl eq_refl eq_refl eq_refl) as (_ & Hget & Hnext).
  split; [exact Hget|]. apply (Hnext locked_world). by vm_compute.
Defined.

(** ** The selector's map *)

Lemma init_object filename reload_every use_timer w s w' :
  LiveConfig.__init__ filename reload_every use_timer w = (Ok s, w') →
  _filename s = filename ∧ _reload_every s = reload_every
  ∧ _use_timer s = use_timer ∧ _last_load s = Some (clock w (ticks w))
  ∧ periodic (trace w')
    = periodic (trace w) ++ (if use_timer then [reload_every * 1000] else []).
Proof.
  unfold LiveConfig.__init__.
  set (s0 := mkLiveConfig ∅ filename reload_every use_timer None).
  pose proof (reload_fields s0 w) as (Hl & Hf & He & Ht).
  pose proof (reload_registers_nothing s0 w) as Hp.
  unfold bind at 1.
  destruct (LiveConfig._reload s0 w) as [[[[]|e] s1] w1]; [|discriminate].
  cbn in Hl, Hf, He, Ht, Hp.
  destruct use_timer; cbn; intros [= <- <-]; cbn;
    rewrite ?periodic_app, ?Hp, ?app_nil_r; by repeat split.
Qed.

(** X11. A selector owns a map on the given role file with an interval of
    ten seconds and the given timer flag (a timer of 10000 ms when set).
    In pull mode a lookup made when the clock shows at most ten seconds
    more than at construction does not reload, and one made later
    does. *)
Theorem X11_selector_reloads_after_ten_seconds role_file use_timer w seer w1 :
  Seer.__init__ role_file use_timer w = (Ok seer, w1) →
  _filename (_roles seer) = role_file
  ∧ _reload_every (_roles seer) = 10
  ∧ _use_timer (_roles seer) = use_timer
  ∧ periodic (trace w1) = periodic (trace w) ++ (if use_timer then [10000] else [])
  ∧ (use_timer = false →
     ∀ w2,
       (clock w2 (ticks w2) ≤ clock w (ticks w) + 10000000 →
          LiveConfig._reload_if_needed (_roles seer) w2
          = (Ok tt, _roles seer, after_utcnow w2))
       ∧ (clock w (ticks w) + 10000000 < clock w2 (ticks w2) →
            LiveConfig._reload_if_needed (_roles seer) w2
            = LiveConfig._reload (_roles seer) (after_utcnow w2))).
Proof.
  unfold Seer.__init__.
  destruct (LiveConfig.__init__ role_file 10 use_timer w) as [[roles|e] w0] eqn:E;
    [|discriminate].
  intros [= <- <-]. cbn.
  destruct (init_object _ _ _ _ _ _ E) as (Hf & He & Ht & Hl & Hp).
  repeat (split; [done|]).
  intros -> w2. split; intros Hclock.
  - apply (refresh_fresh roles w2 _ Ht Hl). rewrite He. unfold timedelta. lia.
  - apply (refresh_stale roles w2 _ Ht Hl). rewrite He. unfold timedelta. lia.
Qed.

Lemma X11_selector_reloads_after_ten_seconds_witness :
  Seer.__init__ "roles.yaml" false masters_world = (Ok masters_seer, masters_loaded)
  ∧ _filename (_roles masters_seer) = "roles.yaml"
  ∧ _reload_every (_roles masters_seer) = 10
  ∧ _use_timer (_roles masters_seer) = false
  ∧ periodic (trace masters_loaded) = periodic (trace masters_world) ++ []
  ∧ LiveConfig._reload_if_needed (_roles masters_seer)
      (roles_world (File moved_text) 10 (1 # 2) masters_heap)
    = (Ok tt, _roles masters_seer,
       after_utcnow (roles_world (File moved_text) 10 (1 # 2) masters_heap))
  ∧ LiveConfig._reload_if_needed (_roles masters_seer)
      (roles_world (File moved_text) 11 (1 # 2) masters_heap)
    = LiveConfig._reload (_roles masters_seer)
        (after_utcnow (roles_world (File moved_text) 11 (1 # 2) masters_heap)).
Proof.
  split; [vm_compute; reflexivity|].
  destruct (X11_selector_reloads_after_ten_seconds
              "roles.yaml" false masters_world masters_seer masters_loaded)
    as (Hf & He & Ht & Hp & Hread); [vm_compute; reflexivity|].
  repeat (split; [assumption|]).
  split.
  - apply (Hread eq_refl (roles_world (File moved_text) 10 (1 # 2) masters_heap)).
    by vm_compute.
  - apply (Hread eq_refl (roles_world (File moved_text) 11 (1 # 2) masters_heap)).
    by vm_compute.
Defined.

(** ** Lookups that do not return; lookups that must *)

(** The lookup up to the value stored for the drawn server. *)
Lemma lookup_to_data seer w key l1 s1 w1 servers name v2 s2 w2 :
  LiveConfig.__getitem__ key (_roles seer) w = (Ok (VRef l1), s1, w1) →
  heap w1 !! l1 = Some servers →
  pick (dice w1 (rolls w1)) (map_to_list servers).*1 = Some name →
  LiveConfig.__getitem__ key s1 (drawn w1) = (Ok v2, s2, w2) →
  Seer.__getitem__ key seer w =
    (do data <- py_getitem v2 name;
     do w0 <- get_world;
     do data' <- (if truthy (heap w0) data then py_dict data else new_dict);
     py_setitem data' "name" (VStr name);;
     ret data') (mkSeer s2) w2.
Proof.
  intros H1 Hl1 Hp H2.
  apply on_roles_run in H1. apply (on_roles_run _ (mkSeer s1)) in H2.
  unfold Seer.__getitem__.
  erewrite bind_ok; cycle 1.
  { apply try_ok.
    erewrite bind_ok by exact H1.
    erewrite bind_ok by (by apply py_keys_run).
    by apply random_choice_picked. }
  by erewrite bind_ok by exact H2.
Qed.

(** X12. A role whose value is not a mapping (a role written without a
    value, a number, a string) makes the lookup raise [AttributeError]
    from [.keys()], not the [KeyError] of a role without servers. *)
Theorem X12_role_without_a_mapping seer w key v s1 w1 :
  LiveConfig.__getitem__ key (_roles seer) w = (Ok v, s1, w1) →
  deref (heap w1) v = None →
  ∃ e, Seer.__getitem__ key seer w = (Raise e, mkSeer s1, w1)
       ∧ class_of e = AttributeError_.
Proof.
  intros H1 Hv. apply on_roles_run in H1.
  exists (AttributeError "keys"). split; [|reflexivity].
  unfold Seer.__getitem__. apply bind_raise.
  apply try_passed; [|reflexivity].
  erewrite bind_ok by exact H1. apply bind_raise.
  unfold py_keys. unfold_monad. by rewrite Hv.
Qed.

Lemma X12_role_without_a_mapping_witness :
  ∃ seer w s1 w1,
    Seer.__init__ "roles.yaml" false (roles_world (File null_role_text) 0 0 [])
    = (Ok seer, w)
    ∧ LiveConfig.__getitem__ "master" (_roles seer) w = (Ok VNone, s1, w1)
    ∧ deref (heap w1) VNone = None
    ∧ ∃ e, Seer.__getitem__ "master" seer w = (Raise e, mkSeer s1, w1)
           ∧ class_of e = AttributeError_.
Proof.
  eexists _, _, _, _.
  split; [vm_compute; reflexivity|].
  split; [vm_compute; reflexivity|].
  split; [reflexivity|].
  eapply (X12_role_without_a_mapping _ _ "master" VNone);
    [vm_compute; reflexivity|reflexivity].
Defined.

(** X13. A server whose stored value is a plain scalar that is true in a
    condition makes the lookup raise from [dict(data)]: [ValueError] for a
    non-empty string (its first character is not a key-value pair),
    [TypeError] for a number other than zero and for [True]. *)
Theorem X13_server_with_a_plain_value
  seer w key l1 s1 w1 servers name l2 s2 w2 servers2 :
  LiveConfig.__getitem__ key (_roles seer) w = (Ok (VRef l1), s1, w1) →
  heap w1 !! l1 = Some servers →
  pick (dice w1 (rolls w1)) (map_to_list servers).*1 = Some name →
  LiveConfig.__getitem__ key s1 (drawn w1) = (Ok (VRef l2), s2, w2) →
  heap w2 !! l2 = Some servers2 →
  (∀ c str, servers2 !! name = Some (VStr (String c str)) →
     Seer.__getitem__ key seer w = (Raise ValueError, mkSeer s2, w2))
  ∧ (∀ n, n ≠ 0 → servers2 !! name = Some (VInt n) →
       Seer.__getitem__ key seer w = (Raise TypeError, mkSeer s2, w2))
  ∧ (servers2 !! name = Some (VBool true) →
       Seer.__getitem__ key seer w = (Raise TypeError, mkSeer s2, w2)).
Proof.
  intros H1 Hl1 Hp H2 Hl2.
  assert (∀ data e,
            servers2 !! name = Some data →
            truthy (heap w2) data = true →
            py_dict data (mkSeer s2) w2 = (Raise e, mkSeer s2, w2) →
            Seer.__getitem__ key seer w = (Raise e, mkSeer s2, w2)) as Hrun.
  { intros data e Hd Ht Hdict.
    rewrite (lookup_to_data _ _ _ _ _ _ _ _ _ _ _ H1 Hl1 Hp H2).
    erewrite bind_ok by (by eapply py_getitem_run).
    erewrite bind_ok by apply get_world_run.
    rewrite Ht. by apply bind_raise. }
  split; [|split].
  - intros c str Hd. by apply (Hrun _ _ Hd).
  - intros n Hn Hd. apply (Hrun _ _ Hd); [|reflexivity].
    cbn. by destruct (Z.eqb_spec n 0).
  - intros Hd. by apply (Hrun _ _ Hd).
Qed.

Lemma X13_server_with_a_plain_value_witness :
  ∃ seer w l1 s1 w1 servers l2 s2 w2 servers2,
    Seer.__init__ "roles.yaml" false (roles_world (File string_server_text) 0 0 [])
    = (Ok seer, w)
    ∧ LiveConfig.__getitem__ "master" (_roles seer) w = (Ok (VRef l1), s1, w1)
    ∧ heap w1 !! l1 = Some servers
    ∧ pick (dice w1 (rolls w1)) (map_to_list servers).*1 = Some "a"
    ∧ LiveConfig.__getitem__ "master" s1 (drawn w1) = (Ok (VRef l2), s2, w2)
    ∧ heap w2 !! l2 = Some servers2
    ∧ servers2 !! "a" = Some (VStr "10.0.0.1")
    ∧ Seer.__getitem__ "master" seer w = (Raise ValueError, mkSeer s2, w2).
Proof.
  eexists _, _, _, _, _, _, _, _, _, _.
  split; [vm_compute; reflexivity|].
  split; [vm_compute; reflexivity|].
  split; [vm_compute; reflexivity|].
  split; [vm_compute; reflexivity|].
  split; [vm_compute; reflexivity|].
  split; [vm_compute; reflexivity|].
  split; [vm_compute; reflexivity|].
  eapply (X13_server_with_a_plain_value _ _ "master" _ _ _ _ "a");
    vm_compute; reflexivity.
Defined.

(** X14. The role is read twice.  When the second read (after a reload
    that fell between the two, say) gives a mapping that does not list the
    drawn server, the lookup raises [KeyError] with the name of the
    server, not of the role. *)
Theorem X14_server_gone_between_the_reads
  seer w key l1 s1 w1 servers name l2 s2 w2 servers2 :
  LiveConfig.__getitem__ key (_roles seer) w = (Ok (VRef l1), s1, w1) →
  heap w1 !! l1 = Some servers →
  pick (dice w1 (rolls w1)) (map_to_list servers).*1 = Some name →
  LiveConfig.__getitem__ key s1 (drawn w1) = (Ok (VRef l2), s2, w2) →
  heap w2 !! l2 = Some servers2 →
  servers2 !! name = None →
  Seer.__getitem__ key seer w = (Raise (KeyError name), mkSeer s2, w2).
Proof.
  intros H1 Hl1 Hp H2 Hl2 Hd.
  rewrite (lookup_to_data _ _ _ _ _ _ _ _ _ _ _ H1 Hl1 Hp H2).
  apply bind_raise. unfold py_getitem. unfold_monad. cbn.
  by rewrite Hl2, Hd.
Qed.

Lemma X14_server_gone_between_the_reads_witness :
  ∃ l1 s1 w1 servers l2 s2 w2 servers2,
    LiveConfig.__getitem__ "master" (_roles masters_seer)
      (roles_world (File moved_text) 10 (1 # 2) masters_heap)
    = (Ok (VRef l1), s1, w1)
    ∧ s1 = _roles masters_seer
    ∧ heap w1 !! l1 = Some servers
    ∧ pick (dice w1 (rolls w1)) (map_to_list servers).*1 = Some "b"
    ∧ LiveConfig.__getitem__ "master" s1 (drawn w1) = (Ok (VRef l2), s2, w2)
    ∧ reloads (trace w2) = 1%nat
    ∧ heap w2 !! l2 = Some servers2
    ∧ servers2 !! "b" = None
    ∧ Seer.__getitem__ "master" masters_seer
        (roles_world (File moved_text) 10 (1 # 2) masters_heap)
      = (Raise (KeyError "b"), mkSeer s2, w2).
Proof.
  eexists _, _, _, _, _, _, _, _.
  split; [vm_compute; reflexivity|].
  split; [reflexivity|].
  split; [vm_compute; reflexivity|].
  split; [vm_compute; reflexivity|].
  split; [vm_compute; reflexivity|].
  split; [vm_compute; reflexivity|].
  split; [vm_compute; reflexivity|].
  split; [vm_compute; reflexivity|].
  eapply (X14_server_gone_between_the_reads masters_seer _ "master" _ _ _ _ "b");
    vm_compute; reflexivity.
Defined.

(** The share of the draws that selects the [i]th name. *)
Lemma pick_share (r : Q) (names : list string) (i : nat) :
  (inject_Z (Z.of_nat i) <= r * inject_Z (Z.of_nat (length names)))%Q →
  (r * inject_Z (Z.of_nat (length names)) < inject_Z (Z.of_nat (S i)))%Q →
  pick r names = names !! i.
Proof.
  unfold pick. generalize (r * inject_Z (Z.of_nat (length names)))%Q.
  intros [a b]. unfold Qle, Qlt, int. cbn. intros Hlo Hhi.
  assert (0 ≤ a) by lia.
  rewrite Z.quot_div_nonneg by lia.
  assert (a `div` Z.pos b = Z.of_nat i) as ->.
  { symmetry. apply (Z.div_unique a (Z.pos b) (Z.of_nat i) (a - Z.pos b * Z.of_nat i)); lia. }
  by rewrite Nat2Z.id.
Qed.

Lemma settled_reads s w :
  settled s w →
  ∃ w1 w2,
    LiveConfig._reload_if_needed s w = (Ok tt, s, w1)
    ∧ heap w1 = heap w ∧ dice w1 = dice w ∧ rolls w1 = rolls w
    ∧ LiveConfig._reload_if_needed s (drawn w1) = (Ok tt, s, w2)
    ∧ heap w2 = heap w.
Proof.
  intros [Ht|(t0 & Ht & Hl & Hfirst & Hsecond)].
  - exists w, (drawn w). split; [by apply refresh_timer|].
    repeat (split; [reflexivity|]). split; [by apply refresh_timer|reflexivity].
  - exists (after_utcnow w), (after_utcnow (drawn (after_utcnow w))).
    split; [by eapply refresh_fresh|]. repeat (split; [reflexivity|]).
    split; [|reflexivity]. by eapply refresh_fresh.
Qed.

(** A lookup into which no reload can fall, once the draw is known. *)
Lemma settled_lookup_run seer w key l servers name data attrs :
  settled (_roles seer) w →
  contents (_roles seer) !! key = Some (VRef l) →
  heap w !! l = Some servers →
  pick (dice w (rolls w)) (map_to_list servers).*1 = Some name →
  servers !! name = Some data →
  attributes (heap w) data = Some attrs →
  ∃ w',
    Seer.__getitem__ key seer w = (Ok (VRef (length (heap w))), seer, w')
    ∧ heap w' = heap w ++ [<["name" := VStr name]> attrs].
Proof.
  intros Hs Hk Hl Hp Hd Ha.
  destruct (settled_reads _ _ Hs) as (w1 & w2 & R1 & Hh1 & Hd1 & Hr1 & R2 & Hh2).
  pose proof (getitem_after_refresh _ _ key _ _ _ R1) as G1.
  pose proof (getitem_after_refresh _ _ key _ _ _ R2) as G2.
  rewrite Hk in G1, G2. cbn in G1, G2.
  eexists. split.
  - rewrite <- Hh2. destruct seer as [roles]. cbn in *.
    eapply (lookup_run (mkSeer roles) w key l roles w1 servers name l roles w2
              servers data attrs); try done.
    + by rewrite Hh1.
    + by rewrite Hd1, Hr1.
    + by rewrite Hh2.
    + by rewrite Hh2.
  - cbn. by rewrite Hh2.
Qed.

(** Rounding to 53 significant bits: a number below [2^53] is exact, and a
    product that keeps one part in [2^53] of distance from the next
    multiple of [2^53] is not rounded up to it. *)
Lemma round53_exact p : 0 ≤ p < 2 ^ 53 → round53 p = p.
Proof.
  intros [H0 H1]. unfold round53.
  destruct (Z.eq_dec p 0) as [->|Hp]; [reflexivity|].
  assert (Z.log2 p < 53) by (apply Z.log2_lt_pow2; lia).
  destruct (Z.leb_spec (Z.log2 p - 52) 0); [reflexivity|lia].
Qed.

Lemma round53_within p i :
  0 ≤ i < 2 ^ 53 →
  i * 2 ^ 53 ≤ p ≤ (i + 1) * (2 ^ 53 - 1) →
  i * 2 ^ 53 ≤ round53 p < (i + 1) * 2 ^ 53.
Proof.
  intros Hi Hp. unfold round53.
  set (s := Z.log2 p - 52).
  destruct (Z.leb_spec s 0) as [Hs|Hs]; [lia|].
  assert (0 < p) as Hpos.
  { destruct (Z.le_gt_cases p 0) as [H|H]; [|exact H].
    pose proof (Z.log2_nonpos p H). unfold s in Hs. lia. }
  destruct (Z.log2_spec p Hpos) as [Hlo _].
  assert (Z.log2 p < 106) as Hlog.
  { apply Z.log2_lt_pow2; [exact Hpos|].
    lia. }
  set (D := 2 ^ s). set (E := 2 ^ (53 - s)). set (half := 2 ^ (s - 1)).
  assert (2 ^ 53 = D * E) as HT.
  { unfold D, E. rewrite <- Z.pow_add_r by lia. f_equal. lia. }
  assert (D = 2 * half) as HD.
  { unfold D, half. rewrite <- (Z.pow_succ_r 2 (s - 1)) by lia. f_equal. lia. }
  assert (0 < half) as Hhalf by (apply Z.pow_pos_nonneg; lia).
  assert (0 < E) as HE by (apply Z.pow_pos_nonneg; lia).
  assert (half * 2 ^ 53 ≤ p) as Hbig.
  { replace (half * 2 ^ 53) with (2 ^ Z.log2 p); [exact Hlo|].
    unfold half. rewrite <- Z.pow_add_r by lia. f_equal. lia. }
  assert (0 ≤ i) as Hi0 by lia.
  clear Hlo Hlog Hi. rewrite HT in *. clear HT.
  clearbody D E half. clear s Hs.
  assert (0 < D) as HDpos by lia.
  pose proof (Z.div_mod p D ltac:(lia)) as Hdm.
  pose proof (Z.mod_pos_bound p D HDpos) as Hrem.
  assert (i * E ≤ p / D) as Hq1 by (apply Z.div_le_lower_bound; lia).
  assert (p / D < (i + 1) * E) as Hq2 by (apply Z.div_lt_upper_bound; lia).
  set (q := p / D) in *. set (rem := p mod D) in *.
  clearbody q rem.
  pose proof (Z.mul_le_mono_nonneg_r _ _ D ltac:(lia) Hq1) as Hlow.
  destruct ((half <? rem) || ((rem =? half) && Z.odd q)) eqn:Hup.
  - split; [lia|].
    assert (half ≤ rem) as Hr.
    { apply orb_true_iff in Hup as [H|H]; [apply Z.ltb_lt in H; lia|].
      apply andb_true_iff in H as [H _]. apply Z.eqb_eq in H. lia. }
    destruct (Z.eq_dec (q + 1) ((i + 1) * E)) as [Heq|Hne].
    + exfalso.
      assert (q = (i + 1) * E - 1) as -> by lia.
      assert (i + 1 ≤ half) as Hsmall by lia.
      pose proof (Z.mul_le_mono_nonneg_r _ _ (D * E) ltac:(lia) Hsmall).
      lia.
    + assert (q + 1 ≤ (i + 1) * E - 1) as Hless by lia.
      pose proof (Z.mul_le_mono_nonneg_r _ _ D ltac:(lia) Hless).
      lia.
  - split; lia.
Qed.

(** The index as CPython computes it, for a draw within the margin. *)
Lemma double_index_within k n i :
  0 ≤ i < n → n < 2 ^ 53 →
  i * 2 ^ 53 ≤ k * n ≤ (i + 1) * (2 ^ 53 - 1) →
  double_index k n = i.
Proof.
  intros Hi Hn Hk. unfold double_index.
  rewrite (round53_exact n) by lia.
  pose proof (round53_within (k * n) i ltac:(lia) Hk) as [Hlo Hhi].
  symmetry. apply (Z.div_unique _ _ _ (round53 (k * n) - i * 2 ^ 53)); lia.
Qed.

(** The same index in the exact arithmetic of the embedding. *)
Lemma pick_double r k names i :
  (r == double k)%Q →
  Z.of_nat i * 2 ^ 53 ≤ k * Z.of_nat (length names) →
  k * Z.of_nat (length names) < (Z.of_nat i + 1) * 2 ^ 53 →
  pick r names = names !! i.
Proof.
  intros Hr Hlo Hhi. apply pick_share.
  - rewrite Hr. unfold Qle, double. cbn. lia.
  - rewrite Hr. unfold Qlt, double. cbn. lia.
Qed.

(** X15. The draw decides the server.  When no reload can fall into the
    lookup and the draw is the double [k / 2^53], with
    [i <= k / 2^53 * n <= (i + 1) * (1 - 2^-53)] for [n] the number of
    servers of the role, the index [int(random() * n)] is [i], in exact
    arithmetic and as computed in doubles alike, and the lookup returns
    the [i]th server of [keys()]: a new dictionary with its attributes and
    its name. *)
Theorem X15_each_server_has_its_share seer w key l servers k i name data attrs :
  settled (_roles seer) w →
  contents (_roles seer) !! key = Some (VRef l) →
  heap w !! l = Some servers →
  (dice w (rolls w) == double k)%Q →
  Z.of_nat (length (map_to_list servers).*1) < 2 ^ 53 →
  Z.of_nat i * 2 ^ 53 ≤ k * Z.of_nat (length (map_to_list servers).*1)
    ≤ (Z.of_nat i + 1) * (2 ^ 53 - 1) →
  (map_to_list servers).*1 !! i = Some name →
  servers !! name = Some data →
  attributes (heap w) data = Some attrs →
  double_index k (Z.of_nat (length (map_to_list servers).*1)) = Z.of_nat i
  ∧ ∃ w',
      Seer.__getitem__ key seer w = (Ok (VRef (length (heap w))), seer, w')
      ∧ heap w' = heap w ++ [<["name" := VStr name]> attrs].
Proof.
  intros Hs Hk Hl Hr Hn Hin Hi Hd Ha.
  pose proof (lookup_lt_Some _ _ _ Hi) as Hlt.
  split; [apply double_index_within; lia|].
  eapply settled_lookup_run; try eassumption.
  rewrite (pick_double _ k _ i Hr); [exact Hi|lia|lia].
Qed.

Lemma X15_each_server_has_its_share_witness :
  settled (_roles masters_seer) (roles_world (File moved_text) 3 (1 # 4) masters_heap)
  ∧ contents (_roles masters_seer) !! "master" = Some (VRef 2)
  ∧ masters_heap !! 2%nat = Some masters_servers
  ∧ (1 # 4 == double 2251799813685248)%Q
  ∧ Z.of_nat (length (map_to_list masters_servers).*1) < 2 ^ 53
  ∧ Z.of_nat 0 * 2 ^ 53
    ≤ 2251799813685248 * Z.of_nat (length (map_to_list masters_servers).*1)
    ≤ (Z.of_nat 0 + 1) * (2 ^ 53 - 1)
  ∧ (map_to_list masters_servers).*1 !! 0%nat = Some "a"
  ∧ masters_servers !! "a" = Some (VRef 0)
  ∧ attributes masters_heap (VRef 0) = Some {[ "ip" := VStr "1.1.1.1" ]}
  ∧ double_index 2251799813685248 2 = 0
  ∧ ∃ w',
      Seer.__getitem__ "master" masters_seer
        (roles_world (File moved_text) 3 (1 # 4) masters_heap)
      = (Ok (VRef 4), masters_seer, w')
      ∧ heap w' = masters_heap ++ [{[ "ip" := VStr "1.1.1.1"; "name" := VStr "a" ]}].
Proof.
  assert (settled (_roles masters_seer)
            (roles_world (File moved_text) 3 (1 # 4) masters_heap)) as Hs.
  { right. exists 0. repeat split; by vm_compute. }
  assert (1 # 4 == double 2251799813685248)%Q as Hr by (by vm_compute).
  assert (Z.of_nat (length (map_to_list masters_servers).*1) < 2 ^ 53) as Hn
    by (by vm_compute).
  assert (Z.of_nat 0 * 2 ^ 53
          ≤ 2251799813685248 * Z.of_nat (length (map_to_list masters_servers).*1)
          ≤ (Z.of_nat 0 + 1) * (2 ^ 53 - 1)) as Hin
    by (split; by vm_compute).
  split; [exact Hs|]. split; [reflexivity|]. split; [reflexivity|].
  split; [exact Hr|]. split; [exact Hn|]. split; [exact Hin|].
  split; [vm_compute; reflexivity|].
  split; [vm_compute; reflexivity|]. split; [vm_compute; reflexivity|].
  destruct (X15_each_server_has_its_share masters_seer
              (roles_world (File moved_text) 3 (1 # 4) masters_heap)
              "master" 2%nat masters_servers 2251799813685248 0%nat "a" (VRef 0)
              {[ "ip" := VStr "1.1.1.1" ]} Hs)
    as (Hindex & w' & Hrun & Hheap);
    [reflexivity|reflexivity|exact Hr|exact Hn|exact Hin
    |vm_compute; reflexivity|vm_compute; reflexivity|vm_compute; reflexivity|].
  split; [exact Hindex|].
  exists w'. split; [exact Hrun|]. rewrite Hheap. vm_compute. reflexivity.
Defined.

(** X16. When no reload can fall into the lookup (timer mode, or a map
    that is fresh at both readings of the clock), a role with at least one
    server, each with an attribute mapping or an empty or null value,
    always yields a result: a new dictionary for one of its servers.  The
    selector itself is unchanged. *)
Theorem X16_listed_role_always_yields seer w key l servers :
  settled (_roles seer) w →
  contents (_roles seer) !! key = Some (VRef l) →
  heap w !! l = Some servers →
  servers ≠ ∅ →
  (0 <= dice w (rolls w))%Q →
  (dice w (rolls w) < 1)%Q →
  (∀ name data, servers !! name = Some data →
     is_Some (attributes (heap w) data)) →
  ∃ name data attrs w',
    servers !! name = Some data
    ∧ attributes (heap w) data = Some attrs
    ∧ Seer.__getitem__ key seer w = (Ok (VRef (length (heap w))), seer, w')
    ∧ heap w' = heap w ++ [<["name" := VStr name]> attrs].
Proof.
  intros Hs Hk Hl Hne Hr0 Hr1 Hattrs.
  destruct (pick_succeeds _ servers Hr0 Hr1 Hne) as [name Hp].
  destruct (pick_is_key _ _ _ Hp) as [data Hd].
  destruct (Hattrs name data Hd) as [attrs Ha].
  destruct (settled_lookup_run seer w key l servers name data attrs)
    as (w' & Hrun & Hheap); try done.
  by exists name, data, attrs, w'.
Qed.

Lemma X16_listed_role_always_yields_witness :
  settled (_roles masters_seer) (roles_world (File moved_text) 3 (1 # 2) masters_heap)
  ∧ contents (_roles masters_seer) !! "master" = Some (VRef 2)
  ∧ masters_heap !! 2%nat = Some masters_servers
  ∧ masters_servers ≠ ∅
  ∧ (0 <= 1 # 2)%Q
  ∧ (1 # 2 < 1)%Q
  ∧ (∀ name data, masters_servers !! name = Some data →
       is_Some (attributes masters_heap data))
  ∧ ∃ name data attrs w',
      masters_servers !! name = Some data
      ∧ attributes masters_heap data = Some attrs
      ∧ Seer.__getitem__ "master" masters_seer
          (roles_world (File moved_text) 3 (1 # 2) masters_heap)
        = (Ok (VRef (length masters_heap)), masters_seer, w')
      ∧ heap w' = masters_heap ++ [<["name" := VStr name]> attrs].
Proof.
  assert (settled (_roles masters_seer)
            (roles_world (File moved_text) 3 (1 # 2) masters_heap)) as Hs.
  { right. exists 0. repeat split; by vm_compute. }
  assert (masters_servers ≠ ∅) as Hne
    by (intros H%(f_equal (lookup "a")); vm_compute in H; discriminate).
  assert (0 <= 1 # 2)%Q as Hr0 by (by vm_compute).
  assert (1 # 2 < 1)%Q as Hr1 by (by vm_compute).
  assert (∀ name data, masters_servers !! name = Some data →
            is_Some (attributes masters_heap data)) as Hattrs.
  { intros name data H. unfold masters_servers in H.
    apply lookup_insert_Some in H as [[_ <-]|[_ H]]; [vm_compute; eauto|].
    apply lookup_singleton_Some in H as [_ <-]. vm_compute; eauto. }
  split; [exact Hs|]. split; [reflexivity|]. split; [reflexivity|].
  split; [exact Hne|]. split; [exact Hr0|]. split; [exact Hr1|].
  split; [exact Hattrs|].
  exact (X16_listed_role_always_yields masters_seer
           (roles_world (File moved_text) 3 (1 # 2) masters_heap)
           "master" 2%nat masters_servers Hs eq_refl eq_refl Hne Hr0 Hr1 Hattrs).
Defined.

(** ** Objects *)

Lemma extends_length w w' : extends w w' → (length (heap w) ≤ length (heap w'))%nat.
Proof. intros [new ->]. rewrite length_app. lia. Qed.

Lemma keeps_run {S A} (m : M S A) s w r s' w' :
  keeps_objects m → m s w = (r, s', w') → extends w w'.
Proof. intros Hm H. specialize (Hm s w). by rewrite H in Hm. Qed.

(** X17. Every result of a lookup is an object of its own: it did not exist
    before the call, a later lookup (of the same role or of another, after
    whatever else was built in between) returns a different object, and
    leaves the earlier result as it was. *)
Theorem X17_results_are_never_shared
  key1 key2 seer w v1 seer1 w1 seer2 w2 v2 seer3 w3 :
  Seer.__getitem__ key1 seer w = (Ok v1, seer1, w1) →
  extends w1 w2 →
  Seer.__getitem__ key2 seer2 w2 = (Ok v2, seer3, w3) →
  ∃ l1 l2,
    v1 = VRef l1 ∧ v2 = VRef l2 ∧ l1 ≠ l2
    ∧ (length (heap w) ≤ l1 < length (heap w1))%nat
    ∧ heap w3 !! l1 = heap w1 !! l1.
Proof.
  intros Hfirst Hbetween Hsecond.
  pose proof (keeps_run _ _ _ _ _ _ (lookup_keeps_objects key2) Hsecond) as Hkeep.
  destruct (lookup_returned _ _ _ _ _ _ Hfirst)
    as (la & sa & wa & srv1 & n1 & lb & sb & wb & srv2 & d1 & attrs1
        & Ha1 & _ & _ & Ha2 & _ & _ & _ & Hv1 & _ & Hw1).
  destruct (lookup_returned _ _ _ _ _ _ Hsecond)
    as (lc & sc & wc & srv3 & n2 & ld & sd & wd & srv4 & d2 & attrs2
        & Hc1 & _ & _ & Hc2 & _ & _ & _ & Hv2 & _ & Hw3).
  pose proof (extends_length _ _ (keeps_run _ _ _ _ _ _ (keeps_getitem key1) Ha1)) as La1.
  pose proof (extends_length _ _ (keeps_run _ _ _ _ _ _ (keeps_getitem key1) Ha2)) as La2.
  pose proof (extends_length _ _ (keeps_run _ _ _ _ _ _ (keeps_getitem key2) Hc1)) as Lc1.
  pose proof (extends_length _ _ (keeps_run _ _ _ _ _ _ (keeps_getitem key2) Hc2)) as Lc2.
  pose proof (extends_length _ _ Hbetween) as Lb.
  assert (length (heap w1) = S (length (heap wb))) as Lw1.
  { rewrite Hw1. cbn. rewrite length_app. cbn. lia. }
  cbn in La2, Lc2.
  exists (length (heap wb)), (length (heap wd)).
  split; [exact Hv1|]. split; [exact Hv2|].
  split; [lia|]. split; [lia|].
  apply extends_lookup; [|lia].
  eapply extends_trans; [exact Hbetween|exact Hkeep].
Qed.

Lemma X17_results_are_never_shared_witness :
  ∃ v1 seer1 w1 v2 seer3 w3,
    Seer.__getitem__ "master" masters_seer
      (roles_world (File moved_text) 3 (1 # 2) masters_heap) = (Ok v1, seer1, w1)
    ∧ extends w1 w1
    ∧ Seer.__getitem__ "master" seer1 w1 = (Ok v2, seer3, w3)
    ∧ ∃ l1 l2,
        v1 = VRef l1 ∧ v2 = VRef l2 ∧ l1 ≠ l2
        ∧ (length masters_heap ≤ l1 < length (heap w1))%nat
        ∧ heap w3 !! l1 = heap w1 !! l1.
Proof.
  eexists _, _, _, _, _, _.
  split; [vm_compute; reflexivity|].
  split; [apply extends_refl|].
  split; [vm_compute; reflexivity|].
  eapply (X17_results_are_never_shared "master" "master" masters_seer
            (roles_world (File moved_text) 3 (1 # 2) masters_heap)
            _ _ _ masters_seer).
  - vm_compute; reflexivity.
  - apply extends_refl.
  - vm_compute; reflexivity.
Defined.

Section Keeps_reads.

Variables (key : string) (default : pyval).

Lemma keeps_get : keeps_objects (LiveConfig.get key default).
Proof.
  unfold LiveConfig.get. apply keeps_try; [apply keeps_getitem|].
  intros e h. destruct e; try discriminate. intros [= <-]. apply keeps_ret.
Qed.

Lemma keeps_getattr : keeps_objects (LiveConfig.__getattr__ key).
Proof.
  unfold LiveConfig.__getattr__. apply keeps_try; [apply keeps_getitem|].
  intros e h. destruct e; try discriminate. intros [= <-]. apply keeps_raise.
Qed.

End Keeps_reads.

(** X18. No call changes a dictionary that exists when it is made: a
    reload builds new objects for the new document and rebinds the keys, a
    lookup writes [name] into its own new dictionary.  What a caller holds
    from an earlier read ([cfg[role]], a lookup result) stays as it
    was. *)
Theorem X18_calls_modify_no_object s seer w key default l :
  (l < length (heap w))%nat →
  heap (LiveConfig._reload s w).2 !! l = heap w !! l
  ∧ heap (LiveConfig.__getitem__ key s w).2 !! l = heap w !! l
  ∧ heap (LiveConfig.get key default s w).2 !! l = heap w !! l
  ∧ heap (LiveConfig.__getattr__ key s w).2 !! l = heap w !! l
  ∧ heap (Seer.__getitem__ key seer w).2 !! l = heap w !! l.
Proof.
  intros Hl.
  split; [apply extends_lookup; [apply keeps_reload|done]|].
  split; [apply extends_lookup; [apply keeps_getitem|done]|].
  split; [apply extends_lookup; [apply keeps_get|done]|].
  split; [apply extends_lookup; [apply keeps_getattr|done]|].
  apply extends_lookup; [apply lookup_keeps_objects|done].
Qed.

Lemma X18_calls_modify_no_object_witness :
  (2 < length (heap (roles_world (File moved_text) 11 (1 # 2) masters_heap)))%nat
  ∧ heap (LiveConfig._reload (_roles masters_seer)
            (roles_world (File moved_text) 11 (1 # 2) masters_heap)).2 !! 2%nat
    = Some masters_servers
  ∧ contents (LiveConfig._reload (_roles masters_seer)
                (roles_world (File moved_text) 11 (1 # 2) masters_heap)).1.2
      !! "master" = Some (VRef 5)
  ∧ heap (Seer.__getitem__ "master" masters_seer
            (roles_world (File moved_text) 11 (1 # 2) masters_heap)).2 !! 2%nat
    = Some masters_servers.
Proof.
  assert (2 < length (heap (roles_world (File moved_text) 11 (1 # 2) masters_heap)))%nat
    as Hl by (vm_compute; lia).
  destruct (X18_calls_modify_no_object (_roles masters_seer) masters_seer
              (roles_world (File moved_text) 11 (1 # 2) masters_heap)
              "master" VNone 2%nat Hl) as (Hreload & _ & _ & _ & Hlookup).
  split; [exact Hl|]. split; [exact Hreload|].
  split; [vm_compute; reflexivity|exact Hlookup].
Defined.

(** ** What a lookup raises *)

Section Raises.

Context {S : Type}.

Lemma raises_ret {A} allowed (a : A) : raises_only allowed (ret a : M S A).
Proof. intros s w e s' w'. discriminate. Qed.

Lemma raises_raise {A} (allowed : exn → Prop) e :
  allowed e → raises_only allowed (raise e : M S A).
Proof. intros He s w e' s' w' [= <- _ _]. exact He. Qed.

Lemma raises_bind {A B} allowed (m : M S A) (k : A → M S B) :
  raises_only allowed m → (∀ a, raises_only allowed (k a)) →
  raises_only allowed (bind m k).
Proof.
  intros Hm Hk s w e s' w'. unfold bind.
  destruct (m s w) as [[[a|e0] s0] w0] eqn:E.
  - apply Hk.
  - intros [= <- <- <-]. by eapply Hm.
Qed.

Lemma raises_try {A} (inner allowed : exn → Prop) (m : M S A) handler :
  raises_only inner m →
  (∀ e, inner e →
     match handler e with
     | Some h => raises_only allowed h
     | None => allowed e
     end) →
  raises_only allowed (try_except m handler).
Proof.
  intros Hm Hh s w e s' w'. unfold try_except.
  destruct (m s w) as [[[a|e0] s0] w0] eqn:E; [discriminate|].
  specialize (Hh e0 (Hm _ _ _ _ _ E)).
  destruct (handler e0) as [h|].
  - apply Hh.
  - by intros [= <- <- <-].
Qed.

Lemma raises_weaken {A} (inner allowed : exn → Prop) (m : M S A) :
  (∀ e, inner e → allowed e) → raises_only inner m → raises_only allowed m.
Proof. intros Hsub Hm s w e s' w' H. apply Hsub. by eapply Hm. Qed.

Lemma raises_get_world allowed : raises_only allowed (get_world : M S World).
Proof. intros s w e s' w'. discriminate. Qed.

Lemma raises_py_keys v :
  raises_only (λ e, lookup_error e = true) (py_keys v : M S (list string)).
Proof.
  intros s w e s' w'. unfold py_keys. unfold_monad.
  destruct (deref (heap w) v); [discriminate|]. by intros [= <- _ _].
Qed.

Lemma raises_random_choice names :
  raises_only (λ e, e = IndexError) (random_choice names : M S string).
Proof.
  intros s w e s' w'. unfold random_choice, random. unfold_monad.
  destruct (names !! Z.to_nat _); [discriminate|]. by intros [= <- _ _].
Qed.

Lemma raises_py_getitem v name :
  raises_only (λ e, lookup_error e = true) (py_getitem v name : M S pyval).
Proof.
  intros s w e s' w'. unfold py_getitem. unfold_monad.
  destruct (deref (heap w) v) as [d|]; [|by intros [= <- _ _]].
  destruct (d !! name); [discriminate|]. by intros [= <- _ _].
Qed.

Lemma raises_named_copy data name :
  raises_only (λ e, lookup_error e = true)
    (do w <- get_world;
     do data' <- (if truthy (heap w) data then py_dict data else new_dict);
     py_setitem data' "name" (VStr name);;
     ret data' : M S pyval).
Proof.
  intros s w e s' w'. unfold new_dict, py_dict, py_setitem. unfold_monad.
  assert (∀ d : gmap string pyval,
            (heap w ++ [d]) !! length (heap w) = Some d) as Hlast.
  { intros d. rewrite lookup_app_r by lia. by rewrite Nat.sub_diag. }
  destruct (truthy (heap w) data).
  - destruct data as [| | |str|l]; try (by intros [= <- _ _]).
    + destruct (String.eqb str EmptyString); [|by intros [= <- _ _]].
      cbn. rewrite Hlast. discriminate.
    + destruct (heap w !! l) as [d|]; [|by intros [= <- _ _]].
      cbn. rewrite Hlast. discriminate.
  - cbn. rewrite Hlast. discriminate.
Qed.

End Raises.

Lemma raises_getitem key :
  raises_only (λ e, lookup_error e = true) (LiveConfig.__getitem__ key).
Proof.
  intros s w e s' w' H.
  destruct (LiveConfig._reload_if_needed s w) as [[r s1] w1] eqn:E.
  rewrite (getitem_after_refresh s w key _ _ _ E) in H.
  destruct r as [[]|e0].
  - destruct (contents s1 !! key); [discriminate|]. by injection H as <- _ _.
  - injection H as <- _ _.
    destruct (refresh_cases s w) as [R|[R|[[_ R]|R]]]; rewrite R in E.
    + discriminate.
    + discriminate.
    + by injection E as <- _ _.
    + destruct (reload_outcome s (after_utcnow w)) as [R'|[R' _]];
        rewrite E in R'; cbn in R'; [discriminate|]. by injection R' as ->.
Qed.

Lemma raises_on_roles {A} allowed (m : M LiveConfig A) :
  raises_only allowed m → raises_only allowed (on_roles m).
Proof.
  intros Hm seer w e seer' w'. unfold on_roles.
  destruct (m (_roles seer) w) as [[r s1] w1] eqn:E.
  intros [= -> _ _]. by eapply Hm.
Qed.

(** X19. A lookup lets out [KeyError], [AttributeError], [TypeError],
    [ValueError] or the [IOError] of a reload, and nothing else: the
    [IndexError] of the empty selection is always translated, and no
    exception of a deserializer gets through. *)
Theorem X19_lookup_lets_no_IndexError_out key seer w e seer' w' :
  Seer.__getitem__ key seer w = (Raise e, seer', w') →
  lookup_error e = true.
Proof.
  revert seer w e seer' w'.
  change (raises_only (λ e, lookup_error e = true) (Seer.__getitem__ key)).
  unfold Seer.__getitem__.
  apply raises_bind; [|intros name].
  { apply (raises_try (λ e, lookup_error e = true ∨ e = IndexError)).
    - apply raises_bind; [|intros servers].
      { apply raises_on_roles.
        eapply raises_weaken; [|apply raises_getitem]. by left. }
      apply raises_bind; [|intros names].
      { eapply raises_weaken; [|apply raises_py_keys]. by left. }
      eapply raises_weaken; [|apply raises_random_choice]. by right.
    - intros e [He| ->]; [|by apply raises_raise].
      by destruct e. }
  apply raises_bind; [apply raises_on_roles, raises_getitem|intros servers].
  apply raises_bind; [apply raises_py_getitem|intros data].
  apply raises_named_copy.
Qed.

Lemma X19_lookup_lets_no_IndexError_out_witness :
  ∃ e seer' w',
    Seer.__getitem__ "worker" masters_seer masters_loaded = (Raise e, seer', w')
    ∧ lookup_error e = true.
Proof.
  eexists _, _, _. split; [vm_compute; reflexivity|].
  eapply (X19_lookup_lets_no_IndexError_out "worker" masters_seer masters_loaded).
  vm_compute; reflexivity.
Defined.
